(** * traffic_monitor: a shallow embedding of [traffic_monitor.py]

    The development follows the module top-down as the source reads:
    text primitives ([str.lower], [str.strip], [in]), the fragment of the
    [re] engine the three patterns of the module need, the duration parser,
    the direction resolver, the page extractor, the scrape orchestrator and
    the run coordinator.

    Conventions.
    - A Python [str] is a [text], a list of characters; characters are the
      code points 0..255, and the character classes below are the Unicode
      ones restricted to that range.
    - A Python call that may raise returns a [result]; [try ... except] is
      [try_except].  Only instances of [Exception] are modelled
      (interpreter signals such as KeyboardInterrupt are not).
    - [int(...)] is applied by the module to captures of [\d+] only and is
      modelled on digit strings, without the interpreter's optional limit
      on the length of a decimal literal.
    - The parser and the extractor are embedded as functions of their
      inputs; their log lines do not influence what they return and are
      left out.  The orchestrator and the coordinator run in a state and
      error monad over a world that records every outside call. *)

From Stdlib Require Import ZArith Bool Ascii String List Lia.
Import ListNotations.
Open Scope Z_scope.

(** ** Text *)

Definition text := list ascii.

Definition str (s : string) : text := list_ascii_of_string s.
Arguments str s%_string.

Definition code (c : ascii) : Z := Z.of_N (N_of_ascii c).

Definition chr (n : Z) : ascii := ascii_of_N (Z.to_N n).

(** [\d]: the decimal digits. *)
Definition is_digit (c : ascii) : bool :=
  (48 <=? code c) && (code c <=? 57).

(** [\s] and the characters removed by [str.strip()]. *)
Definition is_space (c : ascii) : bool :=
  let n := code c in
  ((9 <=? n) && (n <=? 13)) || ((28 <=? n) && (n <=? 32))
  || (n =? 133) || (n =? 160).

Definition is_upper (c : ascii) : bool :=
  let n := code c in
  ((65 <=? n) && (n <=? 90))
  || ((192 <=? n) && (n <=? 222) && negb (n =? 215)).

Definition is_alpha (c : ascii) : bool :=
  let n := code c in
  ((65 <=? n) && (n <=? 90)) || ((97 <=? n) && (n <=? 122))
  || (n =? 170) || (n =? 181) || (n =? 186)
  || ((192 <=? n) && (n <=? 255) && negb (n =? 215) && negb (n =? 247)).

(** Characters that are numeric without being decimal digits
    (superscripts and vulgar fractions). *)
Definition is_numeric_extra (c : ascii) : bool :=
  let n := code c in
  (n =? 178) || (n =? 179) || (n =? 185)
  || ((188 <=? n) && (n <=? 190)).

(** [\w]: alphanumeric characters and the underscore. *)
Definition is_word (c : ascii) : bool :=
  is_alpha c || is_digit c || is_numeric_extra c || (code c =? 95).

(** [str.lower()] on one character. *)
Definition lower_char (c : ascii) : ascii :=
  if is_upper c then chr (code c + 32) else c.

Definition lower (s : text) : text := map lower_char s.

Fixpoint lstrip (s : text) : text :=
  match s with
  | c :: tl => if is_space c then lstrip tl else s
  | [] => []
  end.

Definition rstrip (s : text) : text := rev (lstrip (rev s)).

(** [s.strip()] *)
Definition strip (s : text) : text := rstrip (lstrip s).

Fixpoint text_eqb (a b : text) : bool :=
  match a, b with
  | [], [] => true
  | x :: a', y :: b' => Ascii.eqb x y && text_eqb a' b'
  | _, _ => false
  end.

Fixpoint starts_with (needle hay : text) : bool :=
  match needle, hay with
  | [], _ => true
  | x :: needle', y :: hay' => Ascii.eqb x y && starts_with needle' hay'
  | _ :: _, [] => false
  end.

(** [needle in hay] *)
Fixpoint contains (needle hay : text) : bool :=
  starts_with needle hay
  || match hay with
     | [] => false
     | _ :: hay' => contains needle hay'
     end.

(** [sep.join(parts)] *)
Fixpoint join (sep : text) (parts : list text) : text :=
  match parts with
  | [] => []
  | [p] => p
  | p :: ps => p ++ sep ++ join sep ps
  end.

Definition nonempty (s : text) : bool :=
  match s with [] => false | _ :: _ => true end.

(** Truth value of an [Optional[str]] variable: [None] and [''] are false. *)
Definition truthy_text (o : option text) : bool :=
  match o with Some s => nonempty s | None => false end.

(** Truth value of an [Optional[int]]: [None] and [0] are false. *)
Definition truthy_int (o : option Z) : bool :=
  match o with Some n => negb (n =? 0) | None => false end.

(** ** Exceptions *)

Inductive exn : Type :=
| ValueError
| TypeError
| KeyError
| TimeoutError
| PlaywrightError
| APIError.

Inductive result (A : Type) : Type :=
| Ok (a : A)
| Raise (e : exn).
Arguments Ok {A} a.
Arguments Raise {A} e.

Definition rbind {A B : Type} (m : result A) (k : A -> result B) : result B :=
  match m with
  | Ok a => k a
  | Raise e => Raise e
  end.

Declare Scope result_scope.
Delimit Scope result_scope with result.
Notation "x <- m ;; k" := (rbind m (fun x => k))
  (at level 61, m at next level, right associativity) : result_scope.

(** [try: body  except Exception as e: handler]; the handler may itself
    raise. *)
Definition try_except {A : Type} (body : result A)
           (handler : exn -> result A) : result A :=
  match body with
  | Ok a => Ok a
  | Raise e => handler e
  end.

(** ** The fragment of [re] used by the module *)

Module Re.

(** Patterns.  [Class p] is one character of a class, [Opt] and [Star]
    are the greedy [?] and [*], [Group i r] is the [i]-th capturing
    parenthesis, [WordBoundary] is [\b]. *)
Inductive regex : Type :=
| Empty
| Class (p : ascii -> bool)
| Cat (r1 r2 : regex)
| Opt (r : regex)
| Star (r : regex)
| Group (i : nat) (r : regex)
| WordBoundary.

(** [r+] *)
Definition plus (r : regex) : regex := Cat r (Star r).

(** A literal character under [re.IGNORECASE]. *)
Definition ichar (c : ascii) : regex :=
  Class (fun x => Ascii.eqb (lower_char x) (lower_char c)).

(** A literal string under [re.IGNORECASE]. *)
Fixpoint istring (s : text) : regex :=
  match s with
  | [] => Empty
  | c :: tl => Cat (ichar c) (istring tl)
  end.

(** The matcher's position: the character before the cursor (for [\b]),
    the text from the cursor on, and the groups set so far (most recent
    first). *)
Record mstate : Type := MState {
  prev : option ascii;
  rest : text;
  caps : list (nat * text)
}.

Definition is_word_opt (o : option ascii) : bool :=
  match o with Some c => is_word c | None => false end.

Definition at_boundary (st : mstate) : bool :=
  xorb (is_word_opt (prev st)) (is_word_opt (hd_error (rest st))).

(** The text between two positions of one subject. *)
Definition consumed (st st' : mstate) : text :=
  firstn (length (rest st) - length (rest st')) (rest st).

Definition set_group (i : nat) (s : text) (st : mstate) : mstate :=
  MState (prev st) (rest st) ((i, s) :: caps st).

Fixpoint lookup (i : nat) (l : list (nat * text)) : option text :=
  match l with
  | [] => None
  | (j, s) :: tl => if Nat.eqb i j then Some s else lookup i tl
  end.

(** The loop of a greedy repetition.  [body] matches one iteration and
    [k] what follows the repetition: one more iteration is tried first,
    and it has to consume at least one character; when it leads nowhere
    the repetition stops here.  [fuel] bounds the number of iterations
    and is taken larger than the text left. *)
Fixpoint iterate {A : Type}
         (body : mstate -> (mstate -> option A) -> option A)
         (k : mstate -> option A) (fuel : nat) (st : mstate) : option A :=
  match fuel with
  | O => k st
  | S fuel' =>
      match body st
              (fun st1 =>
                 if (length (rest st1) <? length (rest st))%nat
                 then iterate body k fuel' st1 else None) with
      | Some a => Some a
      | None => k st
      end
  end.

(** Backtracking matcher in continuation-passing style: [k] is what is
    left to match, and a [None] from it makes the matcher try its next
    alternative. *)
Fixpoint rmatch {A : Type} (r : regex) (st : mstate)
         (k : mstate -> option A) : option A :=
  match r with
  | Empty => k st
  | Class p =>
      match rest st with
      | c :: tl => if p c then k (MState (Some c) tl (caps st)) else None
      | [] => None
      end
  | Cat r1 r2 => rmatch r1 st (fun st1 => rmatch r2 st1 k)
  | Opt r1 =>
      match rmatch r1 st k with
      | Some a => Some a
      | None => k st
      end
  | Star r1 =>
      iterate (fun st0 k0 => rmatch r1 st0 k0) k (S (length (rest st))) st
  | Group i r1 =>
      rmatch r1 st (fun st1 => k (set_group i (consumed st st1) st1))
  | WordBoundary => if at_boundary st then k st else None
  end.

(** A match object: where the match starts and the matcher's final
    position. *)
Record match_obj : Type := MatchObj {
  m_start : nat;
  m_final : mstate
}.

(** [m.group(i)]; [None] when the group took no part in the match. *)
Definition group (m : match_obj) (i : nat) : option text :=
  lookup i (caps (m_final m)).

(** The scan of [re.search]: try the pattern at the cursor, then one
    character further, up to and including the end of the subject. *)
Fixpoint search_from (r : regex) (p : option ascii) (s : text)
         (pos : nat) : option match_obj :=
  match rmatch r (MState p s []) (fun st => Some st) with
  | Some st => Some (MatchObj pos st)
  | None =>
      match s with
      | [] => None
      | c :: tl => search_from r (Some c) tl (S pos)
      end
  end.

(** [re.search(r, s)] *)
Definition search (r : regex) (s : text) : option match_obj :=
  search_from r None s 0.

(** The item [re.findall] reports for a match of a pattern with two
    groups: the pair of the groups, [''] for a group that took no part. *)
Definition group_or_empty (m : match_obj) (i : nat) : text :=
  match group m i with Some s => s | None => [] end.

Definition item2 (m : match_obj) : text * text :=
  (group_or_empty m 1, group_or_empty m 2).

(** [re.findall(r, s)] for a pattern with two groups: the matches from
    left to right, each scan resuming where the previous match ended (one
    character further after an empty match). *)
Fixpoint findall_from (fuel : nat) (r : regex) (p : option ascii)
         (s : text) : list (text * text) :=
  match fuel with
  | O => []
  | S fuel' =>
      match search_from r p s 0 with
      | None => []
      | Some m =>
          let st := m_final m in
          item2 m ::
            (if (length (rest st) <? length s)%nat
             then findall_from fuel' r (prev st) (rest st)
             else match skipn (m_start m) s with
                  | c :: tl => findall_from fuel' r (Some c) tl
                  | [] => []
                  end)
      end
  end.

Definition findall (r : regex) (s : text) : list (text * text) :=
  findall_from (S (length s)) r None s.

(** *** What a match is

    [matches r st st']: the pattern [r] matches the text between the
    positions [st] and [st'], setting the groups [st'] has over [st].
    This is the reading of a pattern that does not depend on the order
    in which the matcher explores. *)
Inductive matches : regex -> mstate -> mstate -> Prop :=
| M_Empty st : matches Empty st st
| M_Class p c tl st :
    rest st = c :: tl -> p c = true ->
    matches (Class p) st (MState (Some c) tl (caps st))
| M_Cat r1 r2 st st1 st2 :
    matches r1 st st1 -> matches r2 st1 st2 -> matches (Cat r1 r2) st st2
| M_OptSome r st st1 : matches r st st1 -> matches (Opt r) st st1
| M_OptNone r st : matches (Opt r) st st
| M_StarNil r st : matches (Star r) st st
| M_StarCons r st st1 st2 :
    matches r st st1 ->
    (length (rest st1) < length (rest st))%nat ->
    matches (Star r) st1 st2 ->
    matches (Star r) st st2
| M_Group i r st st1 :
    matches r st st1 ->
    matches (Group i r) st (set_group i (consumed st st1) st1)
| M_WordBoundary st :
    at_boundary st = true -> matches WordBoundary st st.




End Re.

(** ** Duration parser *)

Definition digit_value (c : ascii) : Z := code c - 48.

(** [int(s)] on a decimal literal made of digits; anything else is a
    [ValueError]. *)
Definition int_of_digits (s : text) : result Z :=
  if nonempty s && forallb is_digit s
  then Ok (fold_left (fun acc c => 10 * acc + digit_value c) s 0)
  else Raise ValueError.

(** [int(m.group(i))]; [int(None)] is a [TypeError]. *)
Definition int_of_group (m : Re.match_obj) (i : nat) : result Z :=
  match Re.group m i with
  | Some s => int_of_digits s
  | None => Raise TypeError
  end.

Definition digit : Re.regex := Re.Class is_digit.
Definition space : Re.regex := Re.Class is_space.

(** [r'(\d+)\s*h'] with [re.IGNORECASE] *)
Definition hour_pattern : Re.regex :=
  Re.Cat (Re.Group 1 (Re.plus digit))
    (Re.Cat (Re.Star space) (Re.istring (str "h"))).

(** [r'(\d+)\s*min'] with [re.IGNORECASE] *)
Definition min_pattern : Re.regex :=
  Re.Cat (Re.Group 1 (Re.plus digit))
    (Re.Cat (Re.Star space) (Re.istring (str "min"))).

(** The body of the [try] of [extract_duration_minutes]. *)
Definition extract_duration_minutes_body (duration_text : text)
  : result (option Z) :=
  (let total_minutes := 0 in
   total_minutes <-
     match Re.search hour_pattern duration_text with
     | Some hour_match =>
         h <- int_of_group hour_match 1 ;; Ok (total_minutes + h * 60)
     | None => Ok total_minutes
     end ;;
   total_minutes <-
     match Re.search min_pattern duration_text with
     | Some min_match =>
         m <- int_of_group min_match 1 ;; Ok (total_minutes + m)
     | None => Ok total_minutes
     end ;;
   Ok (if 0 <? total_minutes then Some total_minutes else None))%result.

Definition extract_duration_minutes (duration_text : text)
  : result (option Z) :=
  try_except (extract_duration_minutes_body duration_text)
    (fun _ => Ok None).

(** ** Direction resolver *)

Definition MORNING_WINDOW : Z * Z := (10, 12).
Definition EVENING_WINDOW : Z * Z := (16, 18).

(** What the module reads off [datetime.now(TIMEZONE)]. *)
Record datetime : Type := Datetime {
  hour : Z;
  isoformat : text;
  day_name : text          (* strftime('%A') *)
}.

(** [determine_direction_from_time], the clock reading made explicit. *)
Definition determine_direction_from_time (now : datetime) : text :=
  let current_hour := hour now in
  if (fst MORNING_WINDOW <=? current_hour)
     && (current_hour <? snd MORNING_WINDOW)
  then str "home_to_office"
  else if (fst EVENING_WINDOW <=? current_hour)
          && (current_hour <? snd EVENING_WINDOW)
  then str "office_to_home"
  else str "home_to_office".

(** ** Page extractor *)

(** An element handle: [inner_text()] may raise. *)
Record element : Type := Element {
  inner_text : result text
}.

(** A loaded page, as the extractor observes it: every call it makes and
    what that call gives. *)
Record Page : Type := MkPage {
  wait_for_timeout : Z -> result unit;
  query_selector_all : string -> result (list element);
  content : result text;
  page_inner_text : string -> result text
}.

(** The dictionary the extractor returns. *)
Record travel_data : Type := TravelData {
  duration_text : text;
  duration_minutes : Z;
  distance : text;
  traffic_status : text
}.

Definition duration_selectors : list string :=
  [ "div.Fk3sm.fontHeadlineSmall";
    "div[jstcache=" ++ String (ascii_of_nat 34) ("3" ++ String (ascii_of_nat 34) "]");
    "h1.TnqQD-ZMv3u-headline-4-text";
    "div.XdKEzd";
    "span.delay" ]%string.

Definition distance_selectors : list string :=
  [ "div.Fk3sm.fontBodyMedium";
    "div.ivN21e.tUEI8e.fontBodyMedium" ]%string.

(** ['min' in text.lower() or 'hour' in text.lower()] *)
Definition looks_like_duration (t : text) : bool :=
  contains (str "min") (lower t) || contains (str "hour") (lower t).

(** ['km' in text.lower() or 'mi' in text.lower()] *)
Definition looks_like_distance (t : text) : bool :=
  contains (str "km") (lower t) || contains (str "mi") (lower t).

(** The inner [for element in elements] loop; [found] is the variable the
    loop assigns ([duration_text] or [distance_text]). *)
Fixpoint element_loop (accept : text -> bool) (elements : list element)
         (found : option text) : result (option text) :=
  match elements with
  | [] => Ok found
  | e :: tl =>
      (raw <- inner_text e ;;
       let t := strip raw in
       if accept t then Ok (Some t)            (* assign and break *)
       else element_loop accept tl found)%result
  end.

(** The outer [for selector in ...] loop with its [try] and bare
    [except: continue]. *)
Fixpoint selector_loop (page : Page) (accept : text -> bool)
         (selectors : list string) (found : option text) : option text :=
  match selectors with
  | [] => found
  | selector :: tl =>
      match (elements <- query_selector_all page selector ;;
             element_loop accept elements found)%result with
      | Ok found' =>
          if truthy_text found' then found'     (* break *)
          else selector_loop page accept tl found'
      | Raise _ => selector_loop page accept tl found   (* continue *)
      end
  end.

Definition traffic_status_of (page_content : text) : text :=
  let lc := lower page_content in
  if contains (str "traffic") lc then
    if contains (str "heavy traffic") lc then str "Heavy traffic"
    else if contains (str "moderate traffic") lc then str "Moderate traffic"
    else if contains (str "light traffic") lc then str "Light traffic"
    else str "Unknown"
  else str "Unknown".

(** The fallback's [time_pattern] with [re.IGNORECASE]; spelled with
    blanks between its parts it is
    [\b ( \d+ \s* h (?:our)? s? \s* )? ( \d+ \s* min ) \b]. *)
Definition time_pattern : Re.regex :=
  Re.Cat Re.WordBoundary
    (Re.Cat
       (Re.Opt
          (Re.Group 1
             (Re.Cat (Re.plus digit)
                (Re.Cat (Re.Star space)
                   (Re.Cat (Re.istring (str "h"))
                      (Re.Cat (Re.Opt (Re.istring (str "our")))
                         (Re.Cat (Re.Opt (Re.istring (str "s")))
                            (Re.Star space))))))))
       (Re.Cat
          (Re.Group 2
             (Re.Cat (Re.plus digit)
                (Re.Cat (Re.Star space) (Re.istring (str "min")))))
          Re.WordBoundary)).

(** [distance_text or "N/A"] *)
Definition or_na (distance_text : option text) : text :=
  match distance_text with
  | Some d => if nonempty d then d else str "N/A"
  | None => str "N/A"
  end.

(** [if duration_minutes: return {...}]: the record when the parse gave a
    non-zero number, nothing otherwise (control then falls through). *)
Definition record_if_minutes (dt : text) (parsed : option Z)
           (distance_text : option text) (status : text)
  : option travel_data :=
  match parsed with
  | Some n =>
      if truthy_int parsed
      then Some (TravelData dt n (or_na distance_text) status)
      else None
  | None => None
  end.

(** [' '.join(filter(None, matches[0])).strip()] *)
Definition fallback_text (m : text * text) : text :=
  strip (join (str " ") (filter nonempty [fst m; snd m])).

(** The fallback of [_extract_travel_data], from the line that reads the
    body text on. *)
Definition fallback (page : Page) (distance_text : option text)
           (status : text) : result (option travel_data) :=
  (body_text <- page_inner_text page "body" ;;
   let matches := Re.findall time_pattern body_text in
   match matches with
   | m0 :: _ =>
       let dt := fallback_text m0 in
       parsed <- extract_duration_minutes dt ;;
       match record_if_minutes dt parsed distance_text status with
       | Some r => Ok (Some r)
       | None => Ok None
       end
   | [] => Ok None
   end)%result.

(** The body of the [try] of [_extract_travel_data]. *)
Definition _extract_travel_data_body (page : Page)
  : result (option travel_data) :=
  (_ <- wait_for_timeout page 3000 ;;
   let duration_text :=
     selector_loop page looks_like_duration duration_selectors None in
   let distance_text :=
     selector_loop page looks_like_distance distance_selectors None in
   page_content <- content page ;;
   let status := traffic_status_of page_content in
   primary <-
     match duration_text with
     | Some dt =>
         if truthy_text duration_text then
           parsed <- extract_duration_minutes dt ;;
           Ok (record_if_minutes dt parsed distance_text status)
         else Ok None
     | None => Ok None
     end ;;
   match primary with
   | Some r => Ok (Some r)
   | None => fallback page distance_text status
   end)%result.

Definition _extract_travel_data (page : Page) : result (option travel_data) :=
  try_except (_extract_travel_data_body page) (fun _ => Ok None).

(** ** The outside world *)

Inductive level : Type := INFO | WARNING | ERROR.

(** The row handed to the [traffic_data] table. *)
Record observation : Type := Observation {
  o_timestamp : text;
  o_route_direction : text;
  o_duration_minutes : Z;
  o_duration_text : text;
  o_distance : text;
  o_traffic_status : text;
  o_day_of_week : text
}.

(** Every call that leaves the module.  A log or print event carries the
    literal head of its message; interpolated values are left out. *)
Inductive event : Type :=
| Log (l : level) (message : string)
| Print (message : string)
| Now                                  (* datetime.now(TIMEZONE) *)
| PlaywrightStart                      (* entering [with sync_playwright()] *)
| Launch                               (* p.chromium.launch *)
| NewContext                           (* browser.new_context *)
| NewPage                              (* context.new_page *)
| Goto (url : text)                    (* page.goto *)
| Sleep (seconds : Z)                  (* time.sleep *)
| BrowserClose                         (* browser.close *)
| PlaywrightStop                       (* leaving the [with] block *)
| Insert (table : string) (row : observation).

(** What the outside answers: the clock at its n-th reading, and for every
    browser or database call whether it succeeds. *)
Record Env : Type := MkEnv {
  clock : nat -> datetime;
  start_outcome : result unit;
  launch_outcome : result unit;
  new_context_outcome : result unit;
  new_page_outcome : result unit;
  goto_outcome : text -> result Page;
  close_outcome : result unit;
  insert_outcome : observation -> result unit
}.

(** The resources a scrape holds (the Playwright driver, the browser it
    launched, the browsing context in it), the number of clock readings,
    and the calls made so far, oldest first. *)
Record World : Type := MkWorld {
  driver_running : bool;
  browser_open : bool;
  context_open : bool;
  clock_reads : nat;
  trace : list event
}.

Definition M (A : Type) : Type := World -> result A * World.

Definition ret {A : Type} (a : A) : M A := fun w => (Ok a, w).

Definition bind {A B : Type} (m : M A) (k : A -> M B) : M B :=
  fun w =>
    match m w with
    | (Ok a, w1) => k a w1
    | (Raise e, w1) => (Raise e, w1)
    end.

Declare Scope world_scope.
Delimit Scope world_scope with world.
Notation "x <- m ;; k" := (bind m (fun x => k))
  (at level 61, m at next level, right associativity) : world_scope.
Notation "m ;;; k" := (bind m (fun _ => k))
  (at level 61, right associativity) : world_scope.

(** A call that touches nothing outside. *)
Definition lift {A : Type} (r : result A) : M A := fun w => (r, w).

(** [try: body  except Exception as e: handler] *)
Definition try_exceptM {A : Type} (body : M A) (handler : exn -> M A) : M A :=
  fun w =>
    match body w with
    | (Ok a, w1) => (Ok a, w1)
    | (Raise e, w1) => handler e w1
    end.

Definition record_event (e : event) (w : World) : World :=
  MkWorld (driver_running w) (browser_open w) (context_open w)
          (clock_reads w) (trace w ++ [e]).

Definition emit (e : event) : M unit := fun w => (Ok tt, record_event e w).

Definition log (l : level) (message : string) : M unit := emit (Log l message).

Definition print (message : string) : M unit := emit (Print message).

Definition HOME_ADDRESS : text :=
  str "34, 1st ave, teachers colony, HSR layout 5th sector, 560034".

Definition OFFICE_ADDRESS : text :=
  str "RMZ Eco World Campus 32, Bhoganahalli Village, Bengaluru East, Bengaluru, Karnataka 560103".

(** *** [urllib.parse.quote] *)

Definition hex_digit (n : Z) : ascii :=
  if n <? 10 then chr (48 + n) else chr (55 + n).

Definition percent (byte : Z) : text :=
  [chr 37; hex_digit (byte / 16); hex_digit (byte mod 16)].

(** Characters [quote] leaves alone: ASCII letters, digits, [_.-~] and the
    default safe character [/]. *)
Definition is_safe (c : ascii) : bool :=
  let n := code c in
  ((65 <=? n) && (n <=? 90)) || ((97 <=? n) && (n <=? 122))
  || ((48 <=? n) && (n <=? 57))
  || (n =? 95) || (n =? 46) || (n =? 45) || (n =? 126) || (n =? 47).

(** Other characters are percent-encoded byte by byte in UTF-8: one byte
    below 128, two bytes from 128 to 255. *)
Definition quote_char (c : ascii) : text :=
  let n := code c in
  if is_safe c then [c]
  else if n <? 128 then percent n
  else percent (192 + n / 64) ++ percent (128 + n mod 64).

Definition quote (s : text) : text := flat_map quote_char s.

Section Monitor.

Variable env : Env.

(** [datetime.now(TIMEZONE)] *)
Definition read_clock : M datetime :=
  fun w =>
    (Ok (clock env (clock_reads w)),
     MkWorld (driver_running w) (browser_open w) (context_open w)
             (S (clock_reads w)) (trace w ++ [Now])).

(** *** Browser calls *)

Definition playwright_enter : M unit :=
  fun w =>
    let w1 := record_event PlaywrightStart w in
    match start_outcome env with
    | Ok _ =>
        (Ok tt, MkWorld true (browser_open w1) (context_open w1)
                        (clock_reads w1) (trace w1))
    | Raise e => (Raise e, w1)
    end.

(** Leaving the [with] block stops the driver, and with it every browser
    and context it still holds. *)
Definition playwright_exit (w : World) : World :=
  let w1 := record_event PlaywrightStop w in
  MkWorld false false false (clock_reads w1) (trace w1).

(** [with sync_playwright() as p: body]: the exit runs whether the body
    returns or raises, and does not swallow the exception. *)
Definition with_playwright {A : Type} (body : M A) : M A :=
  fun w =>
    match playwright_enter w with
    | (Ok _, w1) => let (r, w2) := body w1 in (r, playwright_exit w2)
    | (Raise e, w1) => (Raise e, w1)
    end.

Definition launch : M unit :=
  fun w =>
    let w1 := record_event Launch w in
    match launch_outcome env with
    | Ok _ =>
        (Ok tt, MkWorld (driver_running w1) true (context_open w1)
                        (clock_reads w1) (trace w1))
    | Raise e => (Raise e, w1)
    end.

Definition new_context : M unit :=
  fun w =>
    let w1 := record_event NewContext w in
    match new_context_outcome env with
    | Ok _ =>
        (Ok tt, MkWorld (driver_running w1) (browser_open w1) true
                        (clock_reads w1) (trace w1))
    | Raise e => (Raise e, w1)
    end.

Definition new_page : M unit :=
  fun w => (new_page_outcome env, record_event NewPage w).

Definition goto (url : text) : M Page :=
  fun w => (goto_outcome env url, record_event (Goto url) w).

Definition sleep (seconds : Z) : M unit := emit (Sleep seconds).

(** [browser.close()] closes the browser and its contexts. *)
Definition browser_close : M unit :=
  fun w =>
    let w1 := record_event BrowserClose w in
    match close_outcome env with
    | Ok _ =>
        (Ok tt, MkWorld (driver_running w1) false false
                        (clock_reads w1) (trace w1))
    | Raise e => (Raise e, w1)
    end.

(** [self.supabase.table(t).insert(record).execute()] *)
Definition insert (table : string) (row : observation) : M unit :=
  fun w => (insert_outcome env row, record_event (Insert table row) w).

(** *** Scrape orchestrator *)

Definition maps_url (origin destination : text) : text :=
  str "https://www.google.com/maps/dir/" ++ quote origin ++ str "/"
    ++ quote destination ++ str "/?dirflg=b".

(** The body of the [with] block of [scrape_google_maps]. *)
Definition scrape_session (origin destination : text)
  : M (option travel_data) :=
  (log INFO "Launching browser..." ;;;
   launch ;;;
   new_context ;;;
   new_page ;;;
   log INFO "Navigating to Google Maps (Two-wheeler mode): " ;;;
   page <- goto (maps_url origin destination) ;;
   sleep 5 ;;;
   data <- lift (_extract_travel_data page) ;;
   browser_close ;;;
   match data with
   | Some d => log INFO "Successfully extracted: " ;;; ret (Some d)
   | None => log WARNING "Could not extract travel data" ;;; ret None
   end)%world.

Definition scrape_google_maps (origin destination : text)
  : M (option travel_data) :=
  try_exceptM
    (with_playwright (scrape_session origin destination))
    (fun _ => log ERROR "Error scraping Google Maps: " ;;; ret None)%world.

(** *** Persistence *)

Definition save_to_supabase (route_direction : text) (data : travel_data)
  : M bool :=
  try_exceptM
    (now <- read_clock ;;
     let record :=
       Observation (isoformat now) route_direction
                   (duration_minutes data) (duration_text data)
                   (distance data) (traffic_status data) (day_name now) in
     insert "traffic_data" record ;;;
     log INFO "Successfully saved to Supabase: " ;;;
     ret true)%world
    (fun _ => log ERROR "Error saving to Supabase: " ;;; ret false)%world.

(** *** Run coordinator *)

(** [route_direction in ['home_to_office', 'office_to_home']] *)
Definition valid_direction (route_direction : text) : bool :=
  existsb (text_eqb route_direction)
          [str "home_to_office"; str "office_to_home"].

(** The [try] body of [run] from the validation on, the direction being
    known. *)
Definition run_with (route_direction : text) : M unit :=
  (if negb (valid_direction route_direction) then
     log ERROR "Invalid route direction: "
   else
     log INFO "Starting traffic monitoring for route: " ;;;
     endpoints <-
       (if text_eqb route_direction (str "home_to_office") then
          log INFO "Direction: Home -> Office" ;;;
          ret (HOME_ADDRESS, OFFICE_ADDRESS)
        else
          log INFO "Direction: Office -> Home" ;;;
          ret (OFFICE_ADDRESS, HOME_ADDRESS)) ;;
     data <- scrape_google_maps (fst endpoints) (snd endpoints) ;;
     match data with
     | Some d =>
         success <- save_to_supabase route_direction d ;;
         if (success : bool) then
           log INFO "Traffic data collected and saved successfully" ;;;
           print "Success! Duration: "
         else
           log ERROR "Failed to save data to database" ;;;
           print "Failed to save data to database"
     | None =>
         log ERROR "Failed to collect traffic data" ;;;
         print "Failed to collect traffic data from Google Maps"
     end)%world.

Definition run (route_direction : option text) : M unit :=
  try_exceptM
    (route_direction <-
       match route_direction with
       | None => now <- read_clock ;; ret (determine_direction_from_time now)
       | Some d => ret d
       end ;;
     run_with route_direction)%world
    (fun _ => log ERROR "Error in main execution: " ;;;
              print "Error: ")%world.

End Monitor.


Definition initial_world : World := MkWorld false false false 0 [].

(** ** Entry point *)

(** What the environment holds for the store, and what [create_client]
    answers when it is given both values. *)
Record Config : Type := MkConfig {
  SUPABASE_URL : option text;
  SUPABASE_KEY : option text;
  create_client_outcome : result unit
}.

(** [TrafficMonitor.__init__]: a missing or empty value is a
    [ValueError]; otherwise the client is created. *)
Definition __init__ (cfg : Config) : result unit :=
  if negb (truthy_text (SUPABASE_URL cfg))
     || negb (truthy_text (SUPABASE_KEY cfg))
  then Raise ValueError
  else create_client_outcome cfg.

Definition direction_choices : list text :=
  [str "home_to_office"; str "office_to_home"; str "auto"].

(** [parser.parse_args()] seen from the value given to [--direction], if
    any: the default is ['auto'], and a value outside the choices makes
    the parser end the process ([None] here). *)
Definition parse_args (given : option text) : option text :=
  match given with
  | None => Some (str "auto")
  | Some v => if existsb (text_eqb v) direction_choices then Some v else None
  end.

(** [main]: the exit status of the process and the world it leaves.  The
    parser ends the process with status 2 before anything else is done;
    an exception of the [try] is logged, printed and turned into status 1;
    falling off the end is status 0. *)
Definition main (cfg : Config) (env : Env) (given : option text)
  : World -> Z * World :=
  fun w =>
    match parse_args given with
    | None => (2, w)
    | Some arg =>
        match (lift (__init__ cfg) ;;;
               let direction :=
                 if text_eqb arg (str "auto") then None else Some arg in
               run env direction)%world w with
        | (Ok _, w1) => (0, w1)
        | (Raise _, w1) =>
            (1, record_event (Print "Fatal error: ")
                  (record_event (Log ERROR "Fatal error: ") w1))
        end
    end.

(** * Vocabulary of the properties *)

(** [needle] is a substring of [hay]. *)
Definition occurs (needle hay : text) : Prop :=
  exists pre post, hay = pre ++ needle ++ post.

(** The lower-case phrase [needle] is a substring of [hay] up to the case
    of letters. *)
Definition occurs_ignoring_case (needle hay : text) : Prop :=
  exists pre mid post, hay = pre ++ mid ++ post /\ lower mid = needle.







(** The traffic-status computation with the coarse pre-check on the word
    [traffic] removed: the three phrases are looked for directly. *)
Definition traffic_status_ungated (page_content : text) : text :=
  let lc := lower page_content in
  if contains (str "heavy traffic") lc then str "Heavy traffic"
  else if contains (str "moderate traffic") lc then str "Moderate traffic"
  else if contains (str "light traffic") lc then str "Light traffic"
  else str "Unknown".

(** *** Selector lookups *)

(** The element's text is read and, stripped, rejected by the filter. *)
Definition rejected (accept : text -> bool) (e : element) : Prop :=
  exists raw, inner_text e = Ok raw /\ accept (strip raw) = false.

(** The lookup of [selector] yields the candidate [t]: the query answers,
    every element before some element [e], in document order, is read and
    rejected, and the stripped text [t] of [e] is accepted. *)
Definition hit (page : Page) (accept : text -> bool) (selector : string)
           (t : text) : Prop :=
  exists pre e post raw,
    query_selector_all page selector = Ok (pre ++ e :: post) /\
    Forall (rejected accept) pre /\
    inner_text e = Ok raw /\ t = strip raw /\ accept t = true.

(** The lookup of [selector] fails: the query raises, or reading an
    element raises before any element was accepted. *)
Definition lookup_fails (page : Page) (accept : text -> bool)
           (selector : string) : Prop :=
  (exists x, query_selector_all page selector = Raise x) \/
  (exists pre e post x,
      query_selector_all page selector = Ok (pre ++ e :: post) /\
      Forall (rejected accept) pre /\ inner_text e = Raise x).

(** The lookup of [selector] finds nothing: the query answers and no
    element is accepted. *)
Definition finds_nothing (page : Page) (accept : text -> bool)
           (selector : string) : Prop :=
  exists elements,
    query_selector_all page selector = Ok elements /\
    Forall (rejected accept) elements.

Definition no_candidate (page : Page) (accept : text -> bool)
           (selector : string) : Prop :=
  lookup_fails page accept selector \/ finds_nothing page accept selector.

(** *** The two strategies of the extractor *)

(** The duration candidate of the selector strategy. *)
Definition primary_candidate (page : Page) : option text :=
  selector_loop page looks_like_duration duration_selectors None.

Definition distance_candidate (page : Page) : option text :=
  selector_loop page looks_like_distance distance_selectors None.

(** The selector strategy yields no minutes: it has no candidate, or the
    parser finds no duration in its candidate. *)
Definition no_primary_minutes (page : Page) : Prop :=
  match primary_candidate page with
  | Some dt => extract_duration_minutes dt = Ok None
  | None => True
  end.

(** A page on which every call succeeds, no selector matches an element,
    and the content and the body text are as given. *)
Definition plain_page (page_content body : text) : Page :=
  MkPage (fun _ => Ok tt) (fun _ => Ok []) (Ok page_content)
         (fun _ => Ok body).


(** *** The groups of the fallback pattern *)



(** A page whose first duration selector raises, whose fourth holds an
    hour text, and whose others hold a label and a minute text. *)
Definition flaky_page : Page :=
  MkPage (fun _ => Ok tt)
         (fun selector =>
            if String.eqb selector "div.Fk3sm.fontHeadlineSmall"
            then Raise PlaywrightError
            else if String.eqb selector "div.XdKEzd"
            then Ok [Element (Ok (str "1 hour"))]
            else Ok [Element (Ok (str "Fastest route"));
                     Element (Ok (str "  25 min "))])
         (Ok []) (fun _ => Ok []).

(** *** Calls that leave the process *)

Definition is_goto (e : event) : bool :=
  match e with Goto _ => true | _ => false end.

Definition is_insert (e : event) : bool :=
  match e with Insert _ _ => true | _ => false end.

(** The calls of one kind made so far. *)
Definition calls (kind : event -> bool) (w : World) : list event :=
  filter kind (trace w).

(** The page loads requested so far. *)
Definition network_calls : World -> list event := calls is_goto.

(** The writes handed to the persistence adapter so far. *)
Definition persistence_calls : World -> list event := calls is_insert.

(** Every browser call made so far, from starting the driver on. *)
Definition is_browser_call (e : event) : bool :=
  match e with
  | PlaywrightStart | Launch | NewContext | NewPage | Goto _
  | BrowserClose | PlaywrightStop => true
  | _ => false
  end.

Definition browser_calls : World -> list event := calls is_browser_call.

(** The result of a computation does not depend on the world it starts
    in. *)
Definition world_blind {A : Type} (m : M A) : Prop :=
  forall w w', fst (m w) = fst (m w').

(** A computation leaves an observation of the world as it found it. *)
Definition preserves {X A : Type} (f : World -> X) (m : M A) : Prop :=
  forall w, f (snd (m w)) = f w.

(** The direction a run works with. *)
Definition resolved_direction (env : Env) (route_direction : option text)
           (w : World) : text :=
  match route_direction with
  | Some d => d
  | None => determine_direction_from_time (clock env (clock_reads w))
  end.

(** Origin and destination of a direction. *)
Definition route_endpoints (direction : text) : text * text :=
  if text_eqb direction (str "home_to_office")
  then (HOME_ADDRESS, OFFICE_ADDRESS)
  else (OFFICE_ADDRESS, HOME_ADDRESS).

(** What a scrape returns; it depends on the answers of the outside only,
    not on the world it starts in. *)
Definition scrape_result (env : Env) (origin destination : text)
  : result (option travel_data) :=
  fst (scrape_google_maps env origin destination initial_world).

(** An outside on which every call succeeds and the page is [page]. *)
Definition calm_env (page : Page) : Env :=
  MkEnv (fun _ => Datetime 11 (str "2024-01-01T11:00:00+05:30") (str "Monday"))
        (Ok tt) (Ok tt) (Ok tt) (Ok tt) (fun _ => Ok page) (Ok tt)
        (fun _ => Ok tt).

(** An outside on which the page load times out. *)
Definition timeout_env : Env :=
  MkEnv (fun _ => Datetime 11 (str "2024-01-01T11:00:00+05:30") (str "Monday"))
        (Ok tt) (Ok tt) (Ok tt) (Ok tt) (fun _ => Raise TimeoutError) (Ok tt)
        (fun _ => Ok tt).

(** Events that stay inside the process: log lines, prints, clock
    readings and pauses. *)
Definition is_local (e : event) : bool :=
  match e with
  | Log _ _ | Print _ | Now | Sleep _ => true
  | _ => false
  end.

(** The row a run writes for [data] at the time [now]. *)
Definition row_of (now : datetime) (direction : text) (data : travel_data)
  : observation :=
  Observation (isoformat now) direction (duration_minutes data)
              (duration_text data) (distance data) (traffic_status data)
              (day_name now).


(** *** Vocabulary of the further properties *)

(** A computation returns normally from every world. *)
Definition never_raises {A : Type} (m : M A) : Prop :=
  forall w, exists a, fst (m w) = Ok a.

(** A computation adds at most [n] calls of a kind, each of them
    satisfying [P]. *)
Definition adds_only {A : Type} (kind : event -> bool) (P : event -> Prop)
           (n : nat) (m : M A) : Prop :=
  forall w, exists l,
      calls kind (snd (m w)) = calls kind w ++ l /\
      (length l <= n)%nat /\ Forall P l.

(** The characters [quote] can produce: the ones it leaves alone and the
    percent sign (the hexadecimal digits it writes are among the
    former). *)
Definition is_quoted_char (c : ascii) : bool :=
  is_safe c || (code c =? 37).

Definition hex_value (c : ascii) : Z :=
  if is_digit c then code c - 48 else code c - 55.

(** Reads one character back from the front of a quoted text: a
    percent-encoded byte below 128, a percent-encoded pair of bytes, or a
    character that stands for itself. *)
Definition read_quoted (t : text) : option (ascii * text) :=
  match t with
  | [] => None
  | c :: tl =>
      if code c =? 37 then
        match tl with
        | a :: b :: tl1 =>
            let byte := 16 * hex_value a + hex_value b in
            if byte <? 128 then Some (chr byte, tl1)
            else
              match tl1 with
              | _ :: a' :: b' :: tl2 =>
                  let byte' := 16 * hex_value a' + hex_value b' in
                  Some (chr ((byte - 192) * 64 + (byte' - 128)), tl2)
              | _ => None
              end
        | _ => None
        end
      else Some (c, tl)
  end.

Definition slash : ascii := chr 47.

(** The last call of a kind made so far. *)
Definition last_call (kind : event -> bool) (w : World) : option event :=
  hd_error (rev (calls kind w)).

(** A page on which every selector query raises. *)
Definition broken_selectors_page (page_content body : text) : Page :=
  MkPage (fun _ => Ok tt) (fun _ => Raise PlaywrightError) (Ok page_content)
         (fun _ => Ok body).

(** An outside on which everything succeeds but [browser.close()]. *)
Definition close_fails_env (page : Page) : Env :=
  MkEnv (fun _ => Datetime 17 (str "2024-01-01T17:00:00+05:30") (str "Monday"))
        (Ok tt) (Ok tt) (Ok tt) (Ok tt) (fun _ => Ok page)
        (Raise PlaywrightError) (fun _ => Ok tt).

(** An outside on which the store refuses the row. *)
Definition store_fails_env (page : Page) : Env :=
  MkEnv (fun _ => Datetime 17 (str "2024-01-01T17:00:00+05:30") (str "Monday"))
        (Ok tt) (Ok tt) (Ok tt) (Ok tt) (fun _ => Ok page) (Ok tt)
        (fun _ => Raise APIError).

Definition good_config : Config :=
  MkConfig (Some (str "https://example.supabase.co")) (Some (str "key"))
           (Ok tt).

Definition no_key_config : Config :=
  MkConfig (Some (str "https://example.supabase.co")) None (Ok tt).



(** The characters of a routing URL: those [quote] produces and the
    colon, question mark and equals sign of the fixed parts. *)
Definition is_url_char (c : ascii) : bool :=
  is_quoted_char c || (code c =? 58) || (code c =? 63) || (code c =? 61).

(** * Properties *)

(** ** The matcher against the reading of patterns *)

Section MatcherFacts.

Import Re.

Lemma matches_rest r st st' :
  matches r st st' -> exists u, rest st = u ++ rest st'.
Proof.
  induction 1; simpl.
  - exists []; reflexivity.
  - exists [c]; assumption.
  - destruct IHmatches1 as [u1 E1], IHmatches2 as [u2 E2].
    exists (u1 ++ u2). rewrite E1, E2, app_assoc. reflexivity.
  - assumption.
  - exists []; reflexivity.
  - exists []; reflexivity.
  - destruct IHmatches1 as [u1 E1], IHmatches2 as [u2 E2].
    exists (u1 ++ u2). rewrite E1, E2, app_assoc. reflexivity.
  - assumption.
  - exists []; reflexivity.
Qed.






End MatcherFacts.

(** ** [re.search] finds the leftmost match *)

Section SearchFacts.

Import Re.




End SearchFacts.

(** ** The parser's patterns *)

Section PatternFacts.

Import Re.








End PatternFacts.

(** ** Duration parser *)

Section ParserFacts.

Import Re.







(** Whatever the parser returns is a positive number. *)
Lemma extract_duration_minutes_positive s n :
  extract_duration_minutes s = Ok (Some n) -> 1 <= n.
Proof.
  unfold extract_duration_minutes, try_except,
    extract_duration_minutes_body, rbind.
  destruct (search hour_pattern s) as [mh|];
    [destruct (int_of_group mh 1) as [h|]; [|discriminate]|];
    (destruct (search min_pattern s) as [mm|];
     [destruct (int_of_group mm 1) as [m|]; [|discriminate]|]);
    match goal with
    | |- Ok (if 0 <? ?t then _ else _) = _ -> _ =>
        destruct (0 <? t) eqn:E; [|discriminate];
        apply Z.ltb_lt in E; intros [= <-]; lia
    end.
Qed.

End ParserFacts.

(** *** The first component is determined by the text *)




Section ComponentFacts.

Variable unit : text.
Variable u0 : ascii.
Variable unit_tl : text.
Hypothesis unit_head : unit = u0 :: unit_tl.
Hypothesis unit_head_no_digit : is_digit (lower_char u0) = false.




End ComponentFacts.


(** ** Direction resolver *)

(** C2. For every local hour from 0 to 23 the resolver returns a direction:
    home_to_office from 10 to 11, office_to_home from 16 to 17, and
    home_to_office at every other hour; hours 9, 12 and 20 give
    home_to_office, hour 17 gives office_to_home. *)
Theorem determine_direction_from_time_spec :
  (forall now : datetime,
      0 <= hour now <= 23 ->
      (10 <= hour now < 12 ->
       determine_direction_from_time now = str "home_to_office") /\
      (16 <= hour now < 18 ->
       determine_direction_from_time now = str "office_to_home") /\
      (~ 10 <= hour now < 12 -> ~ 16 <= hour now < 18 ->
       determine_direction_from_time now = str "home_to_office"))
  /\ (forall iso day,
         determine_direction_from_time (Datetime 9 iso day)
         = str "home_to_office" /\
         determine_direction_from_time (Datetime 12 iso day)
         = str "home_to_office" /\
         determine_direction_from_time (Datetime 20 iso day)
         = str "home_to_office" /\
         determine_direction_from_time (Datetime 17 iso day)
         = str "office_to_home").
Proof.
  split; [|intros; repeat split; reflexivity].
  intros now _. unfold determine_direction_from_time, MORNING_WINDOW,
    EVENING_WINDOW. cbn [fst snd].
  destruct (Z.leb_spec 10 (hour now)), (Z.ltb_spec (hour now) 12),
    (Z.leb_spec 16 (hour now)), (Z.ltb_spec (hour now) 18);
    cbn [andb]; repeat split; intros; try reflexivity; lia.
Qed.

Lemma determine_direction_from_time_spec_witness :
  determine_direction_from_time (Datetime 11 [] []) = str "home_to_office".
Proof.
  refine (proj1 (proj1 determine_direction_from_time_spec
                       (Datetime 11 [] []) _) _); simpl; lia.
Defined.

(** ** Substrings *)

Lemma starts_with_iff needle :
  forall hay, starts_with needle hay = true <-> exists post, hay = needle ++ post.
Proof.
  induction needle as [|x needle IH]; intros hay; simpl.
  - split; [intros _; exists hay; reflexivity | reflexivity].
  - destruct hay as [|y hay].
    + split; [discriminate | intros [post E]; discriminate].
    + rewrite andb_true_iff, Ascii.eqb_eq, IH. split.
      * intros [-> [post ->]]. exists post. reflexivity.
      * intros [post E]. injection E as -> ->. split; [reflexivity|].
        exists post. reflexivity.
Qed.

Lemma contains_iff needle :
  forall hay, contains needle hay = true <-> occurs needle hay.
Proof.
  unfold occurs.
  induction hay as [|y hay IH]; simpl; rewrite orb_true_iff, starts_with_iff.
  - split.
    + intros [[post E]|]; [|discriminate]. exists [], post. exact E.
    + intros (pre & post & E). left.
      destruct pre; [exists post; exact E | discriminate].
  - rewrite IH. split.
    + intros [[post E]|(pre & post & E)].
      * exists [], post. exact E.
      * exists (y :: pre), post. rewrite E. reflexivity.
    + intros (pre & post & E). destruct pre as [|z pre].
      * left. exists post. exact E.
      * right. injection E as -> ->. exists pre, post. reflexivity.
Qed.

Lemma contains_lower_iff needle hay :
  contains needle (lower hay) = true <-> occurs_ignoring_case needle hay.
Proof.
  rewrite contains_iff. unfold occurs, occurs_ignoring_case, lower. split.
  - intros (pre & post & E).
    apply map_eq_app in E. destruct E as (h1 & h23 & -> & E1 & E23).
    apply map_eq_app in E23. destruct E23 as (h2 & h3 & -> & E2 & E3).
    exists h1, h2, h3. auto.
  - intros (pre & mid & post & -> & E).
    exists (map lower_char pre), (map lower_char post).
    rewrite !map_app, E. reflexivity.
Qed.

Lemma occurs_tail a b hay : occurs (a ++ b) hay -> occurs b hay.
Proof.
  intros (pre & post & ->). exists (pre ++ a), post.
  rewrite <- !app_assoc. reflexivity.
Qed.

(** A text that contains one of the three phrases contains the word they
    end with. *)
Lemma phrase_has_traffic adjective hay :
  contains (adjective ++ str "traffic") hay = true ->
  contains (str "traffic") hay = true.
Proof.
  rewrite !contains_iff. apply occurs_tail.
Qed.

(** ** Traffic status *)

(** C6. For every page content, the traffic-status computation behind the
    pre-check on the word [traffic] gives the same status as the
    computation without the pre-check. *)
Theorem traffic_precheck_redundant :
  forall page_content : text,
    traffic_status_of page_content = traffic_status_ungated page_content.
Proof.
  intros pc. unfold traffic_status_of, traffic_status_ungated. cbv zeta.
  destruct (contains (str "traffic") (lower pc)) eqn:Eg; [reflexivity|].
  destruct (contains (str "heavy traffic") (lower pc)) eqn:Eh.
  { apply (phrase_has_traffic (str "heavy ")) in Eh. congruence. }
  destruct (contains (str "moderate traffic") (lower pc)) eqn:Em.
  { apply (phrase_has_traffic (str "moderate ")) in Em. congruence. }
  destruct (contains (str "light traffic") (lower pc)) eqn:El.
  { apply (phrase_has_traffic (str "light ")) in El. congruence. }
  reflexivity.
Qed.

(** ** Page extractor *)

Lemma record_if_minutes_some dt parsed dist status r :
  record_if_minutes dt parsed dist status = Some r ->
  exists n, parsed = Some n /\ n <> 0 /\
            r = TravelData dt n (or_na dist) status.
Proof.
  unfold record_if_minutes, truthy_int. destruct parsed as [n|]; [|discriminate].
  destruct (Z.eqb_spec n 0); [discriminate|].
  intros [= <-]. exists n. auto.
Qed.

Lemma fallback_some_inv page dist status r :
  match fallback page dist status with
  | Ok a => Ok a
  | Raise _ => Ok None
  end = Ok (Some r) ->
  exists dt n,
    extract_duration_minutes dt = Ok (Some n) /\
    r = TravelData dt n (or_na dist) status.
Proof.
  unfold fallback, rbind.
  destruct (page_inner_text page "body") as [body|]; [|discriminate].
  destruct (Re.findall time_pattern body) as [|m0 ms]; [discriminate|].
  destruct (extract_duration_minutes (fallback_text m0)) as [parsed|] eqn:Ep;
    [|discriminate].
  destruct (record_if_minutes _ parsed _ _) as [r'|] eqn:Er; [|discriminate].
  intros [= <-]. apply record_if_minutes_some in Er.
  destruct Er as (n & -> & _ & ->). exists (fallback_text m0), n. auto.
Qed.

(** What stands behind a record the extractor returns. *)
Lemma extract_some_inv page r :
  _extract_travel_data page = Ok (Some r) ->
  exists pc dt n,
    content page = Ok pc /\
    extract_duration_minutes dt = Ok (Some n) /\
    r = TravelData dt n (or_na (distance_candidate page)) (traffic_status_of pc).
Proof.
  unfold _extract_travel_data, try_except, _extract_travel_data_body, rbind.
  fold (primary_candidate page). fold (distance_candidate page).
  destruct (wait_for_timeout page 3000) as [[]|]; [|discriminate].
  destruct (content page) as [pc|]; [|discriminate].
  destruct (primary_candidate page) as [dt|].
  - destruct (truthy_text (Some dt)).
    + destruct (extract_duration_minutes dt) as [parsed|] eqn:Ep;
        [|discriminate].
      destruct (record_if_minutes dt parsed _ _) as [r'|] eqn:Er.
      * intros [= <-]. apply record_if_minutes_some in Er.
        destruct Er as (n & -> & _ & ->). exists pc, dt, n. auto.
      * intros H. apply fallback_some_inv in H.
        destruct H as (dt' & n & H1 & H2). exists pc, dt', n. auto.
    + intros H. apply fallback_some_inv in H.
      destruct H as (dt' & n & H1 & H2). exists pc, dt', n. auto.
  - intros H. apply fallback_some_inv in H.
    destruct H as (dt' & n & H1 & H2). exists pc, dt', n. auto.
Qed.

(** C5. The traffic status is decided by the three phrases in the order
    heavy, moderate, light, each looked for anywhere in the page content
    and in any mix of cases: the first phrase present gives the status and
    Unknown is the status when none is present; a content with both
    [light traffic] and [heavy traffic] is Heavy.  The status of every
    record the extractor returns is computed this way from the full page
    content. *)
Theorem traffic_status_priority :
  (forall pc : text,
      (occurs_ignoring_case (str "heavy traffic") pc ->
       traffic_status_of pc = str "Heavy traffic") /\
      (~ occurs_ignoring_case (str "heavy traffic") pc ->
       occurs_ignoring_case (str "moderate traffic") pc ->
       traffic_status_of pc = str "Moderate traffic") /\
      (~ occurs_ignoring_case (str "heavy traffic") pc ->
       ~ occurs_ignoring_case (str "moderate traffic") pc ->
       occurs_ignoring_case (str "light traffic") pc ->
       traffic_status_of pc = str "Light traffic") /\
      (~ occurs_ignoring_case (str "heavy traffic") pc ->
       ~ occurs_ignoring_case (str "moderate traffic") pc ->
       ~ occurs_ignoring_case (str "light traffic") pc ->
       traffic_status_of pc = str "Unknown"))
  /\ traffic_status_of (str "Light traffic on NH 44, HEAVY TRAFFIC ahead")
     = str "Heavy traffic"
  /\ (forall page r,
         _extract_travel_data page = Ok (Some r) ->
         exists pc, content page = Ok pc /\
                    traffic_status r = traffic_status_of pc).
Proof.
  split; [|split; [vm_compute; reflexivity|]].
  - intros pc. unfold traffic_status_of. cbv zeta.
    rewrite <- !contains_lower_iff.
    pose proof (phrase_has_traffic (str "heavy ") (lower pc)) as Hh.
    pose proof (phrase_has_traffic (str "moderate ") (lower pc)) as Hm.
    pose proof (phrase_has_traffic (str "light ") (lower pc)) as Hl.
    change (str "heavy " ++ str "traffic") with (str "heavy traffic") in Hh.
    change (str "moderate " ++ str "traffic")
      with (str "moderate traffic") in Hm.
    change (str "light " ++ str "traffic") with (str "light traffic") in Hl.
    destruct (contains (str "heavy traffic") (lower pc));
      destruct (contains (str "moderate traffic") (lower pc));
      destruct (contains (str "light traffic") (lower pc));
      try rewrite (Hh eq_refl); try rewrite (Hm eq_refl);
      try rewrite (Hl eq_refl);
      repeat split; intros; try reflexivity; try congruence;
      destruct (contains (str "traffic") (lower pc)); reflexivity.
  - intros page r H.
    apply extract_some_inv in H.
    destruct H as (pc & dt & n & Hc & _ & ->). exists pc. auto.
Qed.

(** C10. Every record the extractor returns, by the selector strategy or
    by the fallback, carries the minutes the duration parser gives for
    its duration text, and these minutes are at least 1. *)
Theorem extraction_record_consistent :
  forall (page : Page) (r : travel_data),
    _extract_travel_data page = Ok (Some r) ->
    extract_duration_minutes (duration_text r) = Ok (Some (duration_minutes r))
    /\ 1 <= duration_minutes r.
Proof.
  intros page r H. apply extract_some_inv in H.
  destruct H as (pc & dt & n & _ & Hn & ->). simpl.
  split; [assumption|].
  eapply extract_duration_minutes_positive; eassumption.
Qed.

Lemma extraction_record_consistent_witness :
  extract_duration_minutes (str "25 min") = Ok (Some 25) /\ 1 <= 25.
Proof.
  apply (extraction_record_consistent
           (plain_page (str "<html></html>") (str "Arrive in 25 min"))
           (TravelData (str "25 min") 25 (str "N/A") (str "Unknown"))).
  vm_compute. reflexivity.
Defined.

(** ** Selector strategy *)

Section SelectorFacts.

Variable accept : text -> bool.

Lemma element_loop_rejected elements found :
  Forall (rejected accept) elements ->
  element_loop accept elements found = Ok found.
Proof.
  induction 1 as [|e tl (raw & Hraw & Hrej) _ IH]; simpl.
  - reflexivity.
  - rewrite Hraw. simpl. rewrite Hrej. exact IH.
Qed.

Lemma element_loop_hit pre e post raw found :
  Forall (rejected accept) pre ->
  inner_text e = Ok raw -> accept (strip raw) = true ->
  element_loop accept (pre ++ e :: post) found = Ok (Some (strip raw)).
Proof.
  intros Hpre He Ha.
  induction Hpre as [|e' tl (raw' & Hraw & Hrej) _ IH]; simpl.
  - rewrite He. simpl. rewrite Ha. reflexivity.
  - rewrite Hraw. simpl. rewrite Hrej. exact IH.
Qed.

Lemma element_loop_fails pre e post x found :
  Forall (rejected accept) pre -> inner_text e = Raise x ->
  element_loop accept (pre ++ e :: post) found = Raise x.
Proof.
  intros Hpre He.
  induction Hpre as [|e' tl (raw' & Hraw & Hrej) _ IH]; simpl.
  - rewrite He. reflexivity.
  - rewrite Hraw. simpl. rewrite Hrej. exact IH.
Qed.

(** Every list of elements is of one of the three kinds. *)
Lemma elements_classified elements :
  (exists pre e post raw,
      elements = pre ++ e :: post /\ Forall (rejected accept) pre /\
      inner_text e = Ok raw /\ accept (strip raw) = true)
  \/ (exists pre e post x,
         elements = pre ++ e :: post /\ Forall (rejected accept) pre /\
         inner_text e = Raise x)
  \/ Forall (rejected accept) elements.
Proof.
  induction elements as [|e tl IH].
  - right; right. constructor.
  - destruct (inner_text e) as [raw|x] eqn:He.
    + destruct (accept (strip raw)) eqn:Ha.
      * left. exists [], e, tl, raw. auto.
      * assert (Hr : rejected accept e) by (exists raw; auto).
        destruct IH as [(pre & e' & post & raw' & -> & Hp & H1 & H2)
                       |[(pre & e' & post & x & -> & Hp & H1)|Hall]].
        -- left. exists (e :: pre), e', post, raw'. auto.
        -- right; left. exists (e :: pre), e', post, x. auto.
        -- right; right. constructor; assumption.
    + right; left. exists [], e, tl, x. auto.
Qed.

Variable page : Page.

Lemma selector_classified selector :
  (exists t, hit page accept selector t)
  \/ no_candidate page accept selector.
Proof.
  unfold hit, no_candidate, lookup_fails, finds_nothing.
  destruct (query_selector_all page selector) as [els|x] eqn:Eq.
  - destruct (elements_classified els)
      as [(pre & e & post & raw & -> & Hp & H1 & H2)
         |[(pre & e & post & x & -> & Hp & H1)|Hall]].
    + left. exists (strip raw), pre, e, post, raw. auto.
    + right; left; right. exists pre, e, post, x. auto.
    + right; right. exists els. auto.
  - right; left; left. exists x. reflexivity.
Qed.

Lemma selector_loop_skip selector tl :
  no_candidate page accept selector ->
  selector_loop page accept (selector :: tl) None
  = selector_loop page accept tl None.
Proof.
  intros [[(x & Hq)|(pre & e & post & x & Hq & Hp & He)]|(els & Hq & Hall)];
    simpl; rewrite Hq; simpl.
  - reflexivity.
  - rewrite (element_loop_fails _ _ _ x); auto.
  - rewrite element_loop_rejected; auto.
Qed.

Hypothesis accepted_nonempty : forall t, accept t = true -> nonempty t = true.

Lemma selector_loop_hit selector tl t :
  hit page accept selector t ->
  selector_loop page accept (selector :: tl) None = Some t.
Proof.
  intros (pre & e & post & raw & Hq & Hp & He & -> & Ha).
  simpl. rewrite Hq. simpl.
  rewrite (element_loop_hit _ _ _ raw); auto.
  simpl. rewrite (accepted_nonempty _ Ha). reflexivity.
Qed.

Lemma selector_loop_first before selector after t :
  Forall (no_candidate page accept) before ->
  hit page accept selector t ->
  selector_loop page accept (before ++ selector :: after) None = Some t.
Proof.
  induction 1 as [|s0 tl H0 _ IH]; intros Hhit.
  - apply selector_loop_hit. assumption.
  - simpl app. rewrite selector_loop_skip by assumption. auto.
Qed.

Lemma selector_loop_none selectors :
  Forall (no_candidate page accept) selectors ->
  selector_loop page accept selectors None = None.
Proof.
  induction 1 as [|s0 tl H0 _ IH].
  - reflexivity.
  - rewrite selector_loop_skip by assumption. exact IH.
Qed.

End SelectorFacts.

Lemma duration_candidate_nonempty t :
  looks_like_duration t = true -> nonempty t = true.
Proof.
  destruct t; [vm_compute; discriminate | reflexivity].
Qed.

(** C3. The duration candidate is the first accepted element text, going
    through the selectors in list order and through the elements of a
    selector in document order, an element text being accepted when it
    contains [min] or [hour] in any mix of cases: when every selector
    before one gives no candidate (its lookup failed or no element of it
    was accepted) and that one has an accepted text, that text is the
    candidate whatever the later selectors match; when no selector gives a
    candidate there is none.  Every lookup is of one of these kinds, a
    lookup that raises is passed over like one that found nothing, and the
    first selector of the module's list wins over all the others. *)
Theorem selector_priority :
  forall page : Page,
    (forall before selector after t,
        Forall (no_candidate page looks_like_duration) before ->
        hit page looks_like_duration selector t ->
        selector_loop page looks_like_duration
                      (before ++ selector :: after) None = Some t)
    /\ (forall selectors,
           Forall (no_candidate page looks_like_duration) selectors ->
           selector_loop page looks_like_duration selectors None = None)
    /\ (forall selector,
           (exists t, hit page looks_like_duration selector t)
           \/ no_candidate page looks_like_duration selector)
    /\ (forall selector others x,
           query_selector_all page selector = Raise x ->
           selector_loop page looks_like_duration (selector :: others) None
           = selector_loop page looks_like_duration others None)
    /\ (forall t,
           hit page looks_like_duration "div.Fk3sm.fontHeadlineSmall" t ->
           primary_candidate page = Some t)
    /\ (forall t,
           looks_like_duration t = true <->
           occurs_ignoring_case (str "min") t
           \/ occurs_ignoring_case (str "hour") t).
Proof.
  intros page. repeat split.
  - intros. apply selector_loop_first;
      auto using duration_candidate_nonempty.
  - intros. apply selector_loop_none. assumption.
  - intros. apply selector_classified.
  - intros selector others x Hq. apply selector_loop_skip.
    left; left. exists x. assumption.
  - intros t Hhit. unfold primary_candidate, duration_selectors.
    apply (selector_loop_first _ page duration_candidate_nonempty []);
      [constructor | assumption].
  - unfold looks_like_duration. rewrite orb_true_iff, !contains_lower_iff.
    auto.
  - unfold looks_like_duration. rewrite orb_true_iff, !contains_lower_iff.
    auto.
Qed.

Lemma selector_priority_witness :
  primary_candidate flaky_page = Some (str "25 min").
Proof.
  apply (proj1 (selector_priority flaky_page)
               ["div.Fk3sm.fontHeadlineSmall"%string]
               _ _ (str "25 min")).
  - constructor; [|constructor].
    left; left. exists PlaywrightError. reflexivity.
  - exists [Element (Ok (str "Fastest route"))],
      (Element (Ok (str "  25 min "))), [], (str "  25 min ").
    split; [reflexivity|].
    split; [|repeat split; vm_compute; reflexivity].
    constructor; [|constructor].
    exists (str "Fastest route"). split; vm_compute; reflexivity.
Defined.


(** ** Fallback strategy *)

Section FallbackFacts.

Import Re.







End FallbackFacts.





(** ** The world monad *)

Section FrameFacts.

Context {X : Type} (f : World -> X).

Lemma preserves_ret (A : Type) (a : A) : preserves f (ret a).
Proof. intros w. reflexivity. Qed.

Lemma preserves_lift (A : Type) (r : result A) : preserves f (lift r).
Proof. intros w. reflexivity. Qed.

(** The continuation only has to preserve [f] for the values the first
    computation can return. *)
Lemma preserves_bind (A B : Type) (m : M A) (k : A -> M B) :
  preserves f m ->
  (forall a, (exists w, fst (m w) = Ok a) -> preserves f (k a)) ->
  preserves f (bind m k).
Proof.
  intros Hm Hk w. unfold bind. specialize (Hm w).
  destruct (m w) as [[a|e] w1] eqn:E; simpl in *.
  - rewrite <- Hm. apply Hk. exists w. rewrite E. reflexivity.
  - assumption.
Qed.

Lemma preserves_try (A : Type) (body : M A) (handler : exn -> M A) :
  preserves f body -> (forall e, preserves f (handler e)) ->
  preserves f (try_exceptM body handler).
Proof.
  intros Hb Hh w. unfold try_exceptM. specialize (Hb w).
  destruct (body w) as [[a|e] w1]; simpl in *.
  - assumption.
  - rewrite <- Hb. apply Hh.
Qed.

End FrameFacts.

Section BlindFacts.

Lemma blind_ret (A : Type) (a : A) : world_blind (ret a).
Proof. intros w w'. reflexivity. Qed.

Lemma blind_lift (A : Type) (r : result A) : world_blind (lift r).
Proof. intros w w'. reflexivity. Qed.

Lemma blind_emit e : world_blind (emit e).
Proof. intros w w'. reflexivity. Qed.

Lemma blind_bind (A B : Type) (m : M A) (k : A -> M B) :
  world_blind m -> (forall a, world_blind (k a)) -> world_blind (bind m k).
Proof.
  intros Hm Hk w w'. unfold bind. specialize (Hm w w').
  destruct (m w) as [[a|e] w1], (m w') as [[a'|e'] w1']; simpl in *;
    try discriminate.
  - injection Hm as ->. apply Hk.
  - injection Hm as ->. reflexivity.
Qed.

Lemma blind_try (A : Type) (body : M A) (handler : exn -> M A) :
  world_blind body -> (forall e, world_blind (handler e)) ->
  world_blind (try_exceptM body handler).
Proof.
  intros Hb Hh w w'. unfold try_exceptM. specialize (Hb w w').
  destruct (body w) as [[a|e] w1], (body w') as [[a'|e'] w1']; simpl in *;
    try discriminate.
  - assumption.
  - injection Hb as ->. apply Hh.
Qed.

End BlindFacts.

Section BrowserFacts.

Variable env : Env.

Lemma calls_record kind e w :
  calls kind (record_event e w)
  = calls kind w ++ (if kind e then [e] else []).
Proof.
  unfold calls, record_event. simpl. rewrite filter_app. reflexivity.
Qed.

Lemma preserves_emit kind e :
  kind e = false -> preserves (calls kind) (emit e).
Proof.
  intros H w. unfold emit. simpl. rewrite calls_record, H.
  apply app_nil_r.
Qed.

Lemma preserves_launch kind :
  kind Launch = false -> preserves (calls kind) (launch env).
Proof.
  intros H w. unfold launch.
  destruct (launch_outcome env); simpl;
    change (calls kind (record_event Launch w) = calls kind w);
    rewrite calls_record, H; apply app_nil_r.
Qed.

Lemma preserves_new_context kind :
  kind NewContext = false -> preserves (calls kind) (new_context env).
Proof.
  intros H w. unfold new_context.
  destruct (new_context_outcome env); simpl;
    change (calls kind (record_event NewContext w) = calls kind w);
    rewrite calls_record, H; apply app_nil_r.
Qed.

Lemma preserves_new_page kind :
  kind NewPage = false -> preserves (calls kind) (new_page env).
Proof.
  intros H w. unfold new_page. simpl. rewrite calls_record, H.
  apply app_nil_r.
Qed.

Lemma preserves_goto kind url :
  kind (Goto url) = false -> preserves (calls kind) (goto env url).
Proof.
  intros H w. unfold goto. simpl. rewrite calls_record, H.
  apply app_nil_r.
Qed.

Lemma preserves_browser_close kind :
  kind BrowserClose = false -> preserves (calls kind) (browser_close env).
Proof.
  intros H w. unfold browser_close.
  destruct (close_outcome env); simpl;
    change (calls kind (record_event BrowserClose w) = calls kind w);
    rewrite calls_record, H; apply app_nil_r.
Qed.

Lemma preserves_read_clock kind :
  kind Now = false -> preserves (calls kind) (read_clock env).
Proof.
  intros H w. unfold read_clock, calls. simpl.
  rewrite filter_app. simpl. rewrite H. apply app_nil_r.
Qed.

Lemma preserves_with kind (A : Type) (body : M A) :
  kind PlaywrightStart = false -> kind PlaywrightStop = false ->
  preserves (calls kind) body ->
  preserves (calls kind) (with_playwright env body).
Proof.
  intros H1 H2 Hb w. unfold with_playwright, playwright_enter.
  destruct (start_outcome env); simpl.
  - match goal with |- context [body ?w1] =>
      specialize (Hb w1); destruct (body w1) as [r w2] end.
    simpl in *. unfold playwright_exit.
    change (calls kind (record_event PlaywrightStop w2) = calls kind w).
    rewrite calls_record, H2, app_nil_r, Hb.
    change (calls kind (record_event PlaywrightStart w) = calls kind w).
    rewrite calls_record, H1. apply app_nil_r.
  - rewrite calls_record, H1. apply app_nil_r.
Qed.

(** A scrape makes no call of a kind that no browser call, log line or
    pause belongs to; in particular it does not write to the store. *)
Lemma scrape_preserves kind origin destination :
  (forall e, is_insert e = false -> kind e = false) ->
  preserves (calls kind) (scrape_google_maps env origin destination).
Proof.
  intros Hk. unfold scrape_google_maps, scrape_session, log, sleep.
  apply preserves_try; [apply preserves_with|intros e];
    try (apply Hk; reflexivity);
    repeat first
      [ simple apply preserves_ret
      | simple apply preserves_lift
      | simple apply preserves_emit; apply Hk; reflexivity
      | simple apply preserves_launch; apply Hk; reflexivity
      | simple apply preserves_new_context; apply Hk; reflexivity
      | simple apply preserves_new_page; apply Hk; reflexivity
      | simple apply preserves_goto; apply Hk; reflexivity
      | simple apply preserves_browser_close; apply Hk; reflexivity
      | simple apply preserves_bind; [|intros ? _]
      | match goal with |- preserves _ (match ?d with _ => _ end) =>
          destruct d end ].
Qed.

Lemma blind_with (A : Type) (body : M A) :
  world_blind body -> world_blind (with_playwright env body).
Proof.
  intros Hb w w'. unfold with_playwright, playwright_enter.
  destruct (start_outcome env); simpl; [|reflexivity].
  match goal with |- fst (let (_, _) := body ?a in _) = fst (let (_, _) := body ?b in _) =>
    specialize (Hb a b); destruct (body a), (body b) end.
  simpl in *. assumption.
Qed.

Lemma blind_launch : world_blind (launch env).
Proof. intros w w'. unfold launch. destruct (launch_outcome env); reflexivity. Qed.

Lemma blind_new_context : world_blind (new_context env).
Proof.
  intros w w'. unfold new_context.
  destruct (new_context_outcome env); reflexivity.
Qed.

Lemma blind_browser_close : world_blind (browser_close env).
Proof.
  intros w w'. unfold browser_close.
  destruct (close_outcome env); reflexivity.
Qed.

Lemma blind_new_page : world_blind (new_page env).
Proof. intros w w'. reflexivity. Qed.

Lemma blind_goto url : world_blind (goto env url).
Proof. intros w w'. reflexivity. Qed.

Lemma scrape_blind origin destination :
  world_blind (scrape_google_maps env origin destination).
Proof.
  unfold scrape_google_maps, scrape_session, log, sleep.
  apply blind_try; [apply blind_with|intros e];
    repeat first
      [ simple apply blind_ret
      | simple apply blind_lift
      | simple apply blind_emit
      | simple apply blind_launch
      | simple apply blind_new_context
      | simple apply blind_new_page
      | simple apply blind_goto
      | simple apply blind_browser_close
      | simple apply blind_bind; [|intros ?]
      | match goal with |- world_blind (match ?d with _ => _ end) =>
          destruct d end ].
Qed.

Lemma scrape_result_any_world origin destination w :
  fst (scrape_google_maps env origin destination w)
  = scrape_result env origin destination.
Proof. apply scrape_blind. Qed.

End BrowserFacts.

(** ** Scrape orchestrator *)

Lemma _extract_travel_data_total page :
  exists r, _extract_travel_data page = Ok r.
Proof.
  unfold _extract_travel_data, try_except.
  destruct (_extract_travel_data_body page); eauto.
Qed.


(** C8. A scrape never raises to its caller: it always returns normally,
    with a record or with no result.  When the [with] block raises, the
    handler logs an error and the result is no result; a page load that
    raises gives no result, and the extractor itself never raises. *)
Theorem scrape_never_raises :
  forall (env : Env) (origin destination : text) (w : World),
    (exists data w',
        scrape_google_maps env origin destination w = (Ok data, w'))
    /\ (forall x w1,
           with_playwright env (scrape_session env origin destination) w
           = (Raise x, w1) ->
           scrape_google_maps env origin destination w
           = (Ok None,
              record_event (Log ERROR "Error scraping Google Maps: ") w1))
    /\ (forall x,
           start_outcome env = Ok tt -> launch_outcome env = Ok tt ->
           new_context_outcome env = Ok tt -> new_page_outcome env = Ok tt ->
           goto_outcome env (maps_url origin destination) = Raise x ->
           fst (scrape_google_maps env origin destination w) = Ok None)
    /\ (forall page, exists r, _extract_travel_data page = Ok r).
Proof.
  intros env origin destination w. split; [|split; [|split]].
  - unfold scrape_google_maps, try_exceptM.
    destruct (with_playwright env _ w) as [[data|x] w1]; [eauto|].
    eexists. eexists. reflexivity.
  - intros x w1 H. unfold scrape_google_maps, try_exceptM. rewrite H.
    reflexivity.
  - intros x Hs Hl Hc Hp Hg.
    unfold scrape_google_maps, try_exceptM, with_playwright, playwright_enter,
      scrape_session, bind, launch, new_context, new_page, goto, log, emit.
    rewrite Hs. cbn -[maps_url]. rewrite Hl. cbn -[maps_url].
    rewrite Hc. cbn -[maps_url]. rewrite Hp. cbn -[maps_url].
    rewrite Hg. reflexivity.
  - apply _extract_travel_data_total.
Qed.

Lemma scrape_never_raises_witness :
  fst (scrape_google_maps timeout_env HOME_ADDRESS OFFICE_ADDRESS initial_world)
  = Ok None.
Proof.
  apply (proj1 (proj2 (proj2 (scrape_never_raises timeout_env HOME_ADDRESS
                                OFFICE_ADDRESS initial_world)))
               TimeoutError); reflexivity.
Defined.



(** ** Run coordinator *)

Section RunFacts.

Variable env : Env.
Variable kind : event -> bool.
Hypothesis local_not_kind : forall e, is_local e = true -> kind e = false.

Lemma run_with_invalid dir w :
  valid_direction dir = false ->
  run_with env dir w
  = (Ok tt, record_event (Log ERROR "Invalid route direction: ") w).
Proof.
  intros Hv. unfold run_with. rewrite Hv. reflexivity.
Qed.

Lemma endpoints_step dir w ep :
  fst ((if text_eqb dir (str "home_to_office")
        then (log INFO "Direction: Home -> Office" ;;;
              ret (HOME_ADDRESS, OFFICE_ADDRESS))%world
        else (log INFO "Direction: Office -> Home" ;;;
              ret (OFFICE_ADDRESS, HOME_ADDRESS))%world) w) = Ok ep ->
  ep = route_endpoints dir.
Proof.
  unfold route_endpoints.
  destruct (text_eqb dir (str "home_to_office")); cbn;
    intros [= <-]; reflexivity.
Qed.

(** Without a record from the scrape, the part of a run that follows the
    resolution of the direction makes no call of a kind that only
    database writes belong to. *)
Lemma run_with_no_data dir :
  (forall e, is_insert e = false -> kind e = false) ->
  (forall data,
      scrape_result env (fst (route_endpoints dir))
                    (snd (route_endpoints dir)) <> Ok (Some data)) ->
  preserves (calls kind) (run_with env dir).
Proof.
  intros Hk Hno. unfold run_with, log, print.
  destruct (negb (valid_direction dir)).
  - apply preserves_emit, Hk. reflexivity.
  - apply preserves_bind; [apply preserves_emit, Hk; reflexivity|].
    intros _ _. apply preserves_bind.
    + destruct (text_eqb dir (str "home_to_office"));
        (apply preserves_bind;
         [apply preserves_emit, Hk; reflexivity
         |intros; apply preserves_ret]).
    + intros ep [w0 Hep]. apply endpoints_step in Hep. subst ep.
      apply preserves_bind; [apply scrape_preserves; assumption|].
      intros [data|] [w1 Hd].
      * rewrite scrape_result_any_world in Hd. destruct (Hno _ Hd).
      * apply preserves_bind; [apply preserves_emit, Hk; reflexivity|].
        intros _ _. apply preserves_emit, Hk. reflexivity.
Qed.

(** The wrapper of [run] (resolution of the direction, handler of the
    outer [try]) adds no call of the kind: what holds of the calls after
    the inner part holds after the run. *)
Lemma run_frame_gen rd w (P : list event -> Prop) :
  (forall w0, calls kind w0 = calls kind w ->
              P (calls kind
                   (snd (run_with env (resolved_direction env rd w) w0)))) ->
  P (calls kind (snd (run env rd w))).
Proof.
  intros H. unfold run, try_exceptM, bind.
  assert (Hh : forall w1,
             calls kind (snd ((log ERROR "Error in main execution: " ;;;
                               print "Error: ")%world w1)) = calls kind w1).
  { intros w1.
    change (calls kind
              (record_event (Print "Error: ")
                 (record_event (Log ERROR "Error in main execution: ") w1))
            = calls kind w1).
    rewrite !calls_record, !local_not_kind by reflexivity.
    rewrite !app_nil_r. reflexivity. }
  destruct rd as [d|]; cbn -[run_with calls] in *.
  - specialize (H w eq_refl).
    destruct (run_with env d w) as [[[]|x] w1]; cbn -[calls] in *.
    + assumption.
    + rewrite Hh. assumption.
  - match goal with |- context [run_with env ?d ?w1] =>
      assert (Hw1 : calls kind w1 = calls kind w)
    end.
    { unfold calls. cbn. rewrite filter_app. cbn.
      rewrite local_not_kind by reflexivity. apply app_nil_r. }
    specialize (H _ Hw1).
    match goal with |- context [run_with env ?d ?w1] =>
      destruct (run_with env d w1) as [[[]|x] w2]
    end; cbn -[calls] in *.
    + assumption.
    + rewrite Hh. assumption.
Qed.

Lemma run_frame rd w :
  preserves (calls kind) (run_with env (resolved_direction env rd w)) ->
  calls kind (snd (run env rd w)) = calls kind w.
Proof.
  intros H. apply run_frame_gen. intros w0 <-. apply H.
Qed.

End RunFacts.

Lemma insert_not_local e : is_local e = true -> is_insert e = false.
Proof. destruct e; simpl; congruence. Qed.

Lemma goto_not_local e : is_local e = true -> is_goto e = false.
Proof. destruct e; simpl; congruence. Qed.

Lemma browser_call_not_local e : is_local e = true -> is_browser_call e = false.
Proof. destruct e; simpl; congruence. Qed.

Lemma run_invalid_frame env kind rd w :
  (forall e, is_local e = true -> kind e = false) ->
  valid_direction (resolved_direction env rd w) = false ->
  calls kind (snd (run env rd w)) = calls kind w.
Proof.
  intros Hk Hv. apply run_frame; [assumption|].
  intros w0. rewrite run_with_invalid by assumption. cbn [snd].
  rewrite calls_record, Hk by reflexivity. apply app_nil_r.
Qed.

Section SuccessFacts.

Variable env : Env.

Lemma bind_run (A B : Type) (m : M A) (k : A -> M B) w a w1 :
  m w = (Ok a, w1) -> bind m k w = k a w1.
Proof. intros H. unfold bind. rewrite H. reflexivity. Qed.

(** A save hands exactly one row to the store, whether the write
    succeeds or not. *)
Lemma save_calls dir data w :
  persistence_calls (snd (save_to_supabase env dir data w))
  = persistence_calls w
      ++ [Insert "traffic_data"
                 (row_of (clock env (clock_reads w)) dir data)]
  /\ exists saved, fst (save_to_supabase env dir data w) = Ok saved.
Proof.
  unfold save_to_supabase, try_exceptM, bind, read_clock, insert, log,
    emit, ret, persistence_calls, calls, row_of.
  cbn. destruct (insert_outcome env _); cbn;
    rewrite !filter_app; cbn; rewrite <- !app_assoc, ?app_nil_r; cbn;
    eauto.
Qed.

Lemma run_with_success dir data w :
  valid_direction dir = true ->
  scrape_result env (fst (route_endpoints dir)) (snd (route_endpoints dir))
  = Ok (Some data) ->
  exists now,
    persistence_calls (snd (run_with env dir w))
    = persistence_calls w ++ [Insert "traffic_data" (row_of now dir data)].
Proof.
  intros Hv Hs. unfold run_with. rewrite Hv. cbn [negb].
  rewrite (bind_run _ _ _ _ w tt
             (record_event (Log INFO "Starting traffic monitoring for route: ") w))
    by reflexivity.
  set (w1 := record_event _ w).
  assert (Hep : exists w2,
             (if text_eqb dir (str "home_to_office")
              then (log INFO "Direction: Home -> Office" ;;;
                    ret (HOME_ADDRESS, OFFICE_ADDRESS))%world
              else (log INFO "Direction: Office -> Home" ;;;
                    ret (OFFICE_ADDRESS, HOME_ADDRESS))%world) w1
             = (Ok (route_endpoints dir), w2)
             /\ persistence_calls w2 = persistence_calls w).
  { unfold route_endpoints.
    destruct (text_eqb dir (str "home_to_office")); eexists;
      (split; [reflexivity|]);
      unfold persistence_calls; subst w1;
      rewrite !calls_record; cbn; rewrite !app_nil_r; reflexivity. }
  destruct Hep as (w2 & Hep & Hw2).
  rewrite (bind_run _ _ _ _ w1 _ w2 Hep).
  pose proof (scrape_result_any_world env (fst (route_endpoints dir))
                (snd (route_endpoints dir)) w2) as Hr.
  pose proof (scrape_preserves env is_insert (fst (route_endpoints dir))
                (snd (route_endpoints dir)) (fun e H => H) w2) as Hp.
  destruct (scrape_google_maps env _ _ w2) as [r w3] eqn:Es.
  cbn [fst snd] in Hr, Hp. rewrite Hs in Hr. subst r.
  rewrite (bind_run _ _ _ _ w2 _ w3 Es).
  destruct (save_calls dir data w3) as [Hc [saved Hsaved]].
  exists (clock env (clock_reads w3)).
  assert (Hfin : forall l1 m1 m2 w4,
             persistence_calls
               (snd ((log l1 m1 ;;; print m2)%world w4))
             = persistence_calls w4).
  { intros. unfold persistence_calls.
    change (calls is_insert (record_event (Print m2)
                               (record_event (Log l1 m1) w4))
            = calls is_insert w4).
    rewrite !calls_record. cbn. rewrite !app_nil_r. reflexivity. }
  unfold bind at 1.
  destruct (save_to_supabase env dir data w3) as [r4 w4].
  cbn [fst snd] in Hc, Hsaved. subst r4.
  destruct saved; rewrite Hfin, Hc; fold persistence_calls in Hp;
    unfold persistence_calls in *; rewrite Hp, Hw2; reflexivity.
Qed.

(** Without a record from the scrape, a run with a valid direction ends by
    reporting the failure. *)
Lemma run_with_failure dir w :
  valid_direction dir = true ->
  scrape_result env (fst (route_endpoints dir)) (snd (route_endpoints dir))
  = Ok None ->
  exists w3,
    run_with env dir w
    = (Ok tt,
       record_event (Print "Failed to collect traffic data from Google Maps")
         (record_event (Log ERROR "Failed to collect traffic data") w3)).
Proof.
  intros Hv Hs. unfold run_with. rewrite Hv. cbn [negb].
  rewrite (bind_run _ _ _ _ w tt
             (record_event (Log INFO "Starting traffic monitoring for route: ") w))
    by reflexivity.
  set (w1 := record_event _ w).
  assert (Hep : exists w2,
             (if text_eqb dir (str "home_to_office")
              then (log INFO "Direction: Home -> Office" ;;;
                    ret (HOME_ADDRESS, OFFICE_ADDRESS))%world
              else (log INFO "Direction: Office -> Home" ;;;
                    ret (OFFICE_ADDRESS, HOME_ADDRESS))%world) w1
             = (Ok (route_endpoints dir), w2)).
  { unfold route_endpoints.
    destruct (text_eqb dir (str "home_to_office")); eexists; reflexivity. }
  destruct Hep as (w2 & Hep).
  rewrite (bind_run _ _ _ _ w1 _ w2 Hep).
  pose proof (scrape_result_any_world env (fst (route_endpoints dir))
                (snd (route_endpoints dir)) w2) as Hr.
  destruct (scrape_google_maps env _ _ w2) as [r w3] eqn:Es.
  cbn [fst] in Hr. rewrite Hs in Hr. subst r.
  rewrite (bind_run _ _ _ _ w2 _ w3 Es).
  exists w3. reflexivity.
Qed.

End SuccessFacts.

(** C7. A run hands a row to the persistence adapter only after a scrape
    that returned a record for a valid direction.  With a direction
    outside home_to_office and office_to_home the run only logs the
    rejection: no browser call, no page load and no write.  When the
    scrape returns no result the run makes no write and ends by logging
    and printing the failure.  A write therefore
    implies a valid direction and a record from the scrape, and then
    exactly one row, built from that record, is handed over. *)
Theorem persistence_only_after_success :
  forall (env : Env) (route_direction : option text) (w : World),
    let w' := snd (run env route_direction w) in
    let dir := resolved_direction env route_direction w in
    let origin := fst (route_endpoints dir) in
    let destination := snd (route_endpoints dir) in
    (valid_direction dir = false ->
     browser_calls w' = browser_calls w /\
     network_calls w' = network_calls w /\
     persistence_calls w' = persistence_calls w)
    /\ (forall d, route_direction = Some d -> valid_direction d = false ->
                  run env route_direction w
                  = (Ok tt,
                     record_event (Log ERROR "Invalid route direction: ") w))
    /\ (scrape_result env origin destination = Ok None ->
        persistence_calls w' = persistence_calls w)
    /\ (valid_direction dir = true ->
        scrape_result env origin destination = Ok None ->
        exists w3,
          w' = record_event
                 (Print "Failed to collect traffic data from Google Maps")
                 (record_event (Log ERROR "Failed to collect traffic data")
                               w3))
    /\ (persistence_calls w' <> persistence_calls w ->
        valid_direction dir = true /\
        exists data, scrape_result env origin destination = Ok (Some data))
    /\ (forall data,
           valid_direction dir = true ->
           scrape_result env origin destination = Ok (Some data) ->
           exists now,
             persistence_calls w'
             = persistence_calls w
                 ++ [Insert "traffic_data" (row_of now dir data)]).
Proof.
  intros env rd w w' dir origin destination.
  assert (NoData : (forall data, scrape_result env origin destination
                                 <> Ok (Some data)) ->
                   persistence_calls w' = persistence_calls w).
  { intros Hno. apply run_frame; [exact insert_not_local|].
    apply run_with_no_data; auto. }
  split; [|split; [|split; [|split; [|split]]]].
  - intros Hv. repeat split; apply run_invalid_frame;
      auto using insert_not_local, goto_not_local, browser_call_not_local.
  - intros d -> Hv. unfold run, try_exceptM, bind. cbn -[run_with].
    rewrite run_with_invalid by assumption. reflexivity.
  - intros Hs. apply NoData. intros data. rewrite Hs. discriminate.
  - intros Hv Hs. subst w' origin destination dir.
    unfold run, try_exceptM, bind.
    destruct rd as [d|]; cbn -[run_with] in *.
    + destruct (run_with_failure env d w Hv Hs) as [w3 ->].
      exists w3. reflexivity.
    + match goal with |- context [run_with env ?d ?w1] =>
        destruct (run_with_failure env d w1 Hv Hs) as [w3 ->] end.
      exists w3. reflexivity.
  - intros Hne. destruct (valid_direction dir) eqn:Hv.
    + split; [reflexivity|].
      destruct (scrape_result env origin destination) as [[data|]|x] eqn:Hs.
      * exists data. reflexivity.
      * destruct Hne. apply NoData. discriminate.
      * destruct Hne. apply NoData. discriminate.
    + destruct Hne. apply run_invalid_frame;
        auto using insert_not_local.
  - intros data Hv Hs. subst w' origin destination dir.
    apply (run_frame_gen env is_insert insert_not_local rd w
             (fun l => exists now,
                  l = persistence_calls w
                        ++ [Insert "traffic_data"
                                   (row_of now (resolved_direction env rd w)
                                           data)])).
    intros w0 Hw0.
    destruct (run_with_success env _ data w0 Hv Hs) as [now Hn].
    exists now. unfold persistence_calls in *. rewrite Hn, Hw0. reflexivity.
Qed.

Lemma persistence_only_after_success_witness :
  run (calm_env (plain_page [] [])) (Some (str "to_the_moon")) initial_world
  = (Ok tt,
     record_event (Log ERROR "Invalid route direction: ") initial_world).
Proof.
  apply (proj1 (proj2 (persistence_only_after_success
                         (calm_env (plain_page [] []))
                         (Some (str "to_the_moon")) initial_world))
               (str "to_the_moon")); reflexivity.
Defined.

(** * Further properties *)

(** ** URL encoding *)

Lemma quote_char_quoted c : forallb is_quoted_char (quote_char c) = true.
Proof.
  destruct c as [[] [] [] [] [] [] [] []]; vm_compute; reflexivity.
Qed.

Lemma quote_char_length c :
  (1 <= length (quote_char c) <= 6)%nat.
Proof.
  destruct c as [[] [] [] [] [] [] [] []]; vm_compute; lia.
Qed.

Lemma quote_char_slash c :
  existsb (Ascii.eqb slash) (quote_char c) = Ascii.eqb slash c.
Proof.
  destruct c as [[] [] [] [] [] [] [] []]; vm_compute; reflexivity.
Qed.

Lemma read_quoted_quote_char c tl :
  read_quoted (quote_char c ++ tl) = Some (c, tl).
Proof.
  destruct c as [[] [] [] [] [] [] [] []]; reflexivity.
Qed.

Lemma quote_app a b : quote (a ++ b) = quote a ++ quote b.
Proof. unfold quote. apply flat_map_app. Qed.

Lemma quote_injective_aux :
  forall s s', quote s = quote s' -> s = s'.
Proof.
  induction s as [|c s IH]; intros [|c' s'] E.
  - reflexivity.
  - apply (f_equal read_quoted) in E. cbn [quote flat_map] in E.
    rewrite read_quoted_quote_char in E. discriminate.
  - apply (f_equal read_quoted) in E. cbn [quote flat_map] in E.
    rewrite read_quoted_quote_char in E. discriminate.
  - apply (f_equal read_quoted) in E. cbn [quote flat_map] in E.
    rewrite !read_quoted_quote_char in E. injection E as -> E.
    f_equal. apply IH. exact E.
Qed.

Lemma quote_no_slash s :
  existsb (Ascii.eqb slash) s = false ->
  existsb (Ascii.eqb slash) (quote s) = false.
Proof.
  induction s as [|c s IH]; [reflexivity|].
  cbn [existsb quote flat_map].
  intros H. apply orb_false_iff in H. destruct H as [Hc Hs].
  rewrite existsb_app, quote_char_slash, Hc. apply IH. exact Hs.
Qed.

(** Two texts cut at their first slash. *)
Lemma split_at_first_slash :
  forall a a' b b',
    existsb (Ascii.eqb slash) a = false ->
    existsb (Ascii.eqb slash) a' = false ->
    a ++ slash :: b = a' ++ slash :: b' -> a = a' /\ b = b'.
Proof.
  induction a as [|x a IH]; intros [|x' a'] b b' Ha Ha' E;
    cbn [existsb app] in *.
  - injection E as ->. auto.
  - injection E as <- _. apply orb_false_iff in Ha'. destruct Ha' as [Hx _].
    rewrite Ascii.eqb_refl in Hx. discriminate.
  - injection E as -> _. apply orb_false_iff in Ha. destruct Ha as [Hx _].
    rewrite Ascii.eqb_refl in Hx. discriminate.
  - injection E as -> E.
    apply orb_false_iff in Ha. destruct Ha as [_ Ha].
    apply orb_false_iff in Ha'. destruct Ha' as [_ Ha'].
    destruct (IH a' b b' Ha Ha' E) as [-> ->]. auto.
Qed.

(** The text [quote] produces holds only characters that need no
    escaping in a URL path (ASCII letters, digits, [_.-~/]) and percent
    signs; it is at least as long as its input and at most six times as
    long; [quote] works character by character, and a text made of safe
    characters only is returned as it is. *)
Lemma quote_shape :
  forall s : text,
    forallb is_quoted_char (quote s) = true
    /\ (length s <= length (quote s) <= 6 * length s)%nat
    /\ (forall t, quote (s ++ t) = quote s ++ quote t)
    /\ (forallb is_safe s = true -> quote s = s).
Proof.
  intros s. split; [|split; [|split]].
  - induction s as [|c s IH]; [reflexivity|].
    cbn [quote flat_map]. rewrite forallb_app, quote_char_quoted. exact IH.
  - induction s as [|c s IH]; [simpl; lia|].
    cbn [quote flat_map]. rewrite length_app. cbn [length].
    pose proof (quote_char_length c). fold (quote s). lia.
  - intros t. apply quote_app.
  - induction s as [|c s IH]; [reflexivity|].
    cbn [forallb quote flat_map]. intros H.
    apply andb_prop in H. destruct H as [Hc Hs].
    unfold quote_char. rewrite Hc. cbn [app]. f_equal. apply IH. exact Hs.
Qed.

Lemma url_char_plain c :
  is_url_char c = true -> is_space c = false /\ code c < 128.
Proof.
  destruct c as [[] [] [] [] [] [] [] []]; vm_compute;
    intros H; try discriminate H; split; reflexivity.
Qed.

Lemma quoted_is_url_char s :
  forallb is_quoted_char s = true -> forallb is_url_char s = true.
Proof.
  induction s as [|c s IH]; [reflexivity|]. simpl. intros H.
  apply andb_prop in H. destruct H as [Hc Hs].
  unfold is_url_char at 1. rewrite Hc, (IH Hs). reflexivity.
Qed.

(** X1. Whatever the two addresses hold (blanks, commas, letters outside
    ASCII), the routing URL built from them is made of ASCII letters,
    digits, [_.-~/], percent signs and the [:], [?] and [=] of its fixed
    parts: it holds no blank and no character outside ASCII. *)
Theorem maps_url_shape :
  forall origin destination : text,
    forallb is_url_char (maps_url origin destination) = true
    /\ forall c, In c (maps_url origin destination) ->
                 is_space c = false /\ code c < 128.
Proof.
  intros origin destination.
  assert (H : forallb is_url_char (maps_url origin destination) = true).
  { unfold maps_url. rewrite !forallb_app.
    rewrite (quoted_is_url_char (quote origin))
      by apply (proj1 (quote_shape origin)).
    rewrite (quoted_is_url_char (quote destination))
      by apply (proj1 (quote_shape destination)).
    vm_compute. reflexivity. }
  split; [exact H|].
  intros c Hc. apply url_char_plain.
  rewrite forallb_forall in H. apply H. exact Hc.
Qed.

(** X2. The routing URL tells origin and destination apart: for origins
    without a slash, two routes with the same URL have the same origin and
    the same destination; in particular the two directions of the module
    have different URLs. *)
Theorem maps_url_injective :
  (forall origin destination origin' destination',
      existsb (Ascii.eqb slash) origin = false ->
      existsb (Ascii.eqb slash) origin' = false ->
      maps_url origin destination = maps_url origin' destination' ->
      origin = origin' /\ destination = destination')
  /\ maps_url HOME_ADDRESS OFFICE_ADDRESS
     <> maps_url OFFICE_ADDRESS HOME_ADDRESS.
Proof.
  assert (Inj : forall origin destination origin' destination',
      existsb (Ascii.eqb slash) origin = false ->
      existsb (Ascii.eqb slash) origin' = false ->
      maps_url origin destination = maps_url origin' destination' ->
      origin = origin' /\ destination = destination').
  { intros o d o' d' Ho Ho' E. unfold maps_url in E.
    apply app_inv_head in E.
    change (str "/") with [slash] in E. cbn [app] in E.
    apply split_at_first_slash in E; try (apply quote_no_slash; assumption).
    destruct E as [Eo Ed]. apply app_inv_tail in Ed.
    split; apply quote_injective_aux; assumption. }
  split; [exact Inj|].
  intros E. apply Inj in E; try (vm_compute; reflexivity).
  destruct E as [E _]. vm_compute in E. discriminate.
Qed.

Lemma maps_url_injective_witness :
  str "home" = str "home" /\ str "office" = str "office".
Proof.
  apply (proj1 maps_url_injective (str "home") (str "office")
               (str "home") (str "office")); reflexivity.
Defined.

(** ** Page extractor, further *)

Lemma element_loop_accepted accept :
  forall elements found t,
    element_loop accept elements found = Ok (Some t) ->
    found = Some t \/ accept t = true.
Proof.
  induction elements as [|e tl IH]; intros found t H; simpl in H.
  - injection H as ->. auto.
  - destruct (inner_text e) as [raw|x]; [|discriminate]. simpl in H.
    destruct (accept (strip raw)) eqn:Ea.
    + injection H as <-. auto.
    + apply IH. exact H.
Qed.

(** A candidate a selector loop ends with was there before or passed the
    filter. *)
Lemma selector_loop_accepted page accept :
  forall selectors found t,
    selector_loop page accept selectors found = Some t ->
    found = Some t \/ accept t = true.
Proof.
  induction selectors as [|sel tl IH]; intros found t H; simpl in H.
  - auto.
  - destruct (query_selector_all page sel) as [els|x]; simpl in H.
    + destruct (element_loop accept els found) as [found'|y] eqn:Ee.
      * destruct (truthy_text found').
        -- subst found'. eapply element_loop_accepted. exact Ee.
        -- apply IH in H. destruct H as [H|H]; [|auto].
           subst found'. eapply element_loop_accepted. exact Ee.
      * apply IH. exact H.
    + apply IH. exact H.
Qed.

Lemma distance_candidate_nonempty t :
  looks_like_distance t = true -> nonempty t = true.
Proof.
  destruct t; [vm_compute; discriminate | reflexivity].
Qed.

Lemma occurs_head a b hay : occurs (a ++ b) hay -> occurs a hay.
Proof.
  intros (pre & post & ->). exists pre, (b ++ post).
  rewrite <- !app_assoc. reflexivity.
Qed.












Lemma primary_candidate_truthy page dt :
  primary_candidate page = Some dt -> truthy_text (Some dt) = true.
Proof.
  intros H. apply selector_loop_accepted in H.
  destruct H as [H|H]; [discriminate|].
  apply duration_candidate_nonempty. exact H.
Qed.

(** X4. The selector strategy comes first: when the page answers the wait
    and the request for its content, and the parser finds minutes in the
    selector candidate, the extractor returns the record built from that
    candidate, whatever the reading of the body text would give or raise;
    the fallback is not consulted. *)
Theorem selector_strategy_first :
  forall (page : Page) (pc dt : text) (n : Z),
    wait_for_timeout page 3000 = Ok tt ->
    content page = Ok pc ->
    primary_candidate page = Some dt ->
    extract_duration_minutes dt = Ok (Some n) ->
    _extract_travel_data page
    = Ok (Some (TravelData dt n (or_na (distance_candidate page))
                           (traffic_status_of pc))).
Proof.
  intros page pc dt n Hw Hc Hp Hn.
  unfold _extract_travel_data, try_except, _extract_travel_data_body, rbind.
  fold (primary_candidate page). fold (distance_candidate page).
  rewrite Hw, Hc, Hp, (primary_candidate_truthy _ _ Hp), Hn.
  apply extract_duration_minutes_positive in Hn.
  unfold record_if_minutes, truthy_int.
  destruct (Z.eqb_spec n 0); [lia | reflexivity].
Qed.

Lemma selector_strategy_first_witness :
  _extract_travel_data
    (MkPage (fun _ => Ok tt)
            (fun _ => Ok [Element (Ok (str " 1 hour 5 min "))])
            (Ok (str "heavy traffic")) (fun _ => Raise PlaywrightError))
  = Ok (Some (TravelData (str "1 hour 5 min") 65 (str "1 hour 5 min")
                         (str "Heavy traffic"))).
Proof.
  apply (selector_strategy_first
           (MkPage (fun _ => Ok tt)
                   (fun _ => Ok [Element (Ok (str " 1 hour 5 min "))])
                   (Ok (str "heavy traffic"))
                   (fun _ => Raise PlaywrightError))
           (str "heavy traffic") (str "1 hour 5 min") 65);
    vm_compute; reflexivity.
Defined.

(** X5. The extractor gives no result, and does not raise, when the page
    fails under it: when the initial wait raises, when the request for the
    page content raises (even though the selectors may have found a
    duration), and when the selector strategy yields no minutes and the
    reading of the body text raises. *)
Theorem extraction_failure_modes :
  forall (page : Page) (x : exn),
    (wait_for_timeout page 3000 = Raise x ->
     _extract_travel_data page = Ok None)
    /\ (content page = Raise x -> _extract_travel_data page = Ok None)
    /\ (no_primary_minutes page ->
        page_inner_text page "body" = Raise x ->
        _extract_travel_data page = Ok None).
Proof.
  intros page x. split; [|split].
  - intros Hw.
    unfold _extract_travel_data, try_except, _extract_travel_data_body, rbind.
    rewrite Hw. reflexivity.
  - intros Hc.
    unfold _extract_travel_data, try_except, _extract_travel_data_body, rbind.
    rewrite Hc. destruct (wait_for_timeout page 3000); reflexivity.
  - intros Hnp Hb.
    unfold _extract_travel_data, try_except, _extract_travel_data_body, rbind.
    fold (primary_candidate page). fold (distance_candidate page).
    unfold no_primary_minutes in Hnp.
    destruct (wait_for_timeout page 3000); [|reflexivity].
    destruct (content page); [|reflexivity].
    assert (Hf : forall dist status,
               match fallback page dist status with
               | Ok a => Ok a
               | Raise _ => Ok None
               end = Ok None).
    { intros. unfold fallback, rbind. rewrite Hb. reflexivity. }
    destruct (primary_candidate page) as [dt|]; [|apply Hf].
    destruct (truthy_text (Some dt)); [|apply Hf].
    rewrite Hnp. apply Hf.
Qed.

Lemma extraction_failure_modes_witness :
  _extract_travel_data
    (MkPage (fun _ => Ok tt)
            (fun _ => Ok [Element (Ok (str "25 min"))])
            (Raise PlaywrightError) (fun _ => Ok (str "25 min")))
  = Ok None.
Proof.
  apply (proj1 (proj2 (extraction_failure_modes
                         (MkPage (fun _ => Ok tt)
                                 (fun _ => Ok [Element (Ok (str "25 min"))])
                                 (Raise PlaywrightError)
                                 (fun _ => Ok (str "25 min")))
                         PlaywrightError))).
  reflexivity.
Defined.

(** X6. The distance strategy works like the duration strategy with its
    own selectors and filter ([km] or [mi] in any mix of cases): the first
    accepted element text in selector order is the distance, lookups that
    raise or accept nothing are passed over, and when no selector gives a
    distance the extraction does not fail: the record says [N/A]. *)
Theorem distance_strategy :
  forall page : Page,
    (forall before selector after t,
        Forall (no_candidate page looks_like_distance) before ->
        hit page looks_like_distance selector t ->
        selector_loop page looks_like_distance
                      (before ++ selector :: after) None = Some t)
    /\ (Forall (no_candidate page looks_like_distance) distance_selectors ->
        or_na (distance_candidate page) = str "N/A")
    /\ (forall t,
           looks_like_distance t = true <->
           occurs_ignoring_case (str "km") t
           \/ occurs_ignoring_case (str "mi") t).
Proof.
  intros page. split; [|split].
  - intros. apply selector_loop_first;
      auto using distance_candidate_nonempty.
  - intros H. unfold distance_candidate.
    rewrite selector_loop_none by assumption. reflexivity.
  - intros t. unfold looks_like_distance.
    rewrite orb_true_iff, !contains_lower_iff. reflexivity.
Qed.

Lemma distance_strategy_witness :
  or_na (distance_candidate (broken_selectors_page [] [])) = str "N/A".
Proof.
  apply (proj1 (proj2 (distance_strategy (broken_selectors_page [] [])))).
  unfold distance_selectors.
  constructor; [left; left; exists PlaywrightError; reflexivity|].
  constructor; [left; left; exists PlaywrightError; reflexivity|].
  constructor.
Defined.

(** X7. The distance filter also lets minute texts through: [mi] is the
    beginning of [min], so an element text that holds [min] in any mix of
    cases is accepted as a distance, and when it is the first readable
    element of the first distance selector it becomes the distance of the
    record. *)
Theorem distance_filter_accepts_minutes :
  (forall t, occurs_ignoring_case (str "min") t ->
             looks_like_distance t = true)
  /\ (forall page e others raw,
         query_selector_all page "div.Fk3sm.fontBodyMedium"
         = Ok (e :: others) ->
         inner_text e = Ok raw ->
         occurs_ignoring_case (str "min") (strip raw) ->
         distance_candidate page = Some (strip raw)).
Proof.
  assert (A : forall t, occurs_ignoring_case (str "min") t ->
                        looks_like_distance t = true).
  { intros t H. unfold looks_like_distance. apply orb_true_iff. right.
    apply contains_lower_iff in H. rewrite contains_iff in *.
    apply (occurs_head (str "mi") (str "n")). exact H. }
  split; [exact A|].
  intros page e others raw Hq He Ht.
  unfold distance_candidate, distance_selectors.
  apply (selector_loop_first _ page distance_candidate_nonempty []);
    [constructor|].
  exists [], e, others, raw.
  split; [exact Hq|]. split; [constructor|]. split; [exact He|].
  split; [reflexivity|]. apply A. exact Ht.
Qed.

Lemma distance_filter_accepts_minutes_witness :
  looks_like_distance (str "25 MIN") = true.
Proof.
  apply (proj1 distance_filter_accepts_minutes (str "25 MIN")).
  exists (str "25 "), (str "MIN"), []. split; reflexivity.
Defined.

(** ** The world monad, further *)

Section CountFacts.

Context {A B : Type}.
Variable kind : event -> bool.

Lemma never_raises_bind (m : M A) (k : A -> M B) :
  never_raises m -> (forall a, never_raises (k a)) -> never_raises (bind m k).
Proof.
  intros Hm Hk w. unfold bind. destruct (Hm w) as [a Ha].
  destruct (m w) as [r w1]. simpl in Ha. subst r. apply Hk.
Qed.

Lemma never_raises_try (body : M A) (handler : exn -> M A) :
  (forall e, never_raises (handler e)) ->
  never_raises (try_exceptM body handler).
Proof.
  intros Hh w. unfold try_exceptM.
  destruct (body w) as [[a|e] w1]; [exists a; reflexivity | apply Hh].
Qed.

Lemma adds_only_preserves (P : event -> Prop) (m : M A) :
  preserves (calls kind) m -> adds_only kind P 0 m.
Proof.
  intros H w. exists []. rewrite app_nil_r.
  split; [apply H|]. split; [simpl; lia | constructor].
Qed.

Lemma adds_only_bind (P : event -> Prop) n1 n2 (m : M A) (k : A -> M B) :
  adds_only kind P n1 m ->
  (forall a, (exists w, fst (m w) = Ok a) -> adds_only kind P n2 (k a)) ->
  adds_only kind P (n1 + n2) (bind m k).
Proof.
  intros Hm Hk w. unfold bind.
  destruct (Hm w) as (l1 & E1 & L1 & F1).
  destruct (m w) as [[a|e] w1] eqn:E; simpl in *.
  - destruct (Hk a (ex_intro _ w (f_equal fst E)) w1) as (l2 & E2 & L2 & F2).
    exists (l1 ++ l2). rewrite E2, E1, app_assoc, length_app.
    split; [reflexivity|]. split; [lia|]. apply Forall_app. auto.
  - exists l1. split; [assumption|]. split; [lia | assumption].
Qed.

End CountFacts.

Section CountFacts2.

Context {A : Type}.
Variable kind : event -> bool.

Lemma adds_only_try (P : event -> Prop) n1 n2 (body : M A)
      (handler : exn -> M A) :
  adds_only kind P n1 body ->
  (forall e, adds_only kind P n2 (handler e)) ->
  adds_only kind P (n1 + n2) (try_exceptM body handler).
Proof.
  intros Hb Hh w. unfold try_exceptM.
  destruct (Hb w) as (l1 & E1 & L1 & F1).
  destruct (body w) as [[a|e] w1]; simpl in *.
  - exists l1. split; [assumption|]. split; [lia | assumption].
  - destruct (Hh e w1) as (l2 & E2 & L2 & F2).
    exists (l1 ++ l2). rewrite E2, E1, app_assoc, length_app.
    split; [reflexivity|]. split; [lia|]. apply Forall_app. auto.
Qed.

Lemma adds_only_with env (P : event -> Prop) n (body : M A) :
  kind PlaywrightStart = false -> kind PlaywrightStop = false ->
  adds_only kind P n body ->
  adds_only kind P n (with_playwright env body).
Proof.
  intros H1 H2 Hb w. unfold with_playwright, playwright_enter.
  destruct (start_outcome env); simpl.
  - match goal with |- context [body ?w1] =>
      destruct (Hb w1) as (l & E & L & F); destruct (body w1) as [r w2] end.
    simpl in *. exists l. split; [|split; assumption].
    unfold playwright_exit.
    change (calls kind (record_event PlaywrightStop w2) = calls kind w ++ l).
    rewrite calls_record, H2, app_nil_r, E.
    change (calls kind (record_event PlaywrightStart w) ++ l
            = calls kind w ++ l).
    rewrite calls_record, H1, app_nil_r. reflexivity.
  - exists []. rewrite calls_record, H1, !app_nil_r.
    split; [reflexivity|]. split; [simpl; lia | constructor].
Qed.

End CountFacts2.

Section OutsideFacts.

Variable env : Env.

Lemma preserves_insert kind table row :
  kind (Insert table row) = false ->
  preserves (calls kind) (insert env table row).
Proof.
  intros H w. unfold insert. simpl. rewrite calls_record, H.
  apply app_nil_r.
Qed.

Lemma adds_goto url :
  adds_only is_goto (eq (Goto url)) 1 (goto env url).
Proof.
  intros w. exists [Goto url]. unfold goto. simpl.
  rewrite calls_record. simpl. auto.
Qed.

Lemma adds_insert (P : event -> Prop) table row :
  P (Insert table row) ->
  adds_only is_insert P 1 (insert env table row).
Proof.
  intros HP w. exists [Insert table row]. unfold insert. simpl.
  rewrite calls_record. simpl. auto.
Qed.

(** A scrape loads at most one page, the one of the routing URL. *)
Lemma scrape_adds_goto origin destination :
  adds_only is_goto (eq (Goto (maps_url origin destination))) 1
            (scrape_google_maps env origin destination).
Proof.
  unfold scrape_google_maps, scrape_session, log, sleep.
  apply (adds_only_try is_goto _ 1 0).
  - apply adds_only_with; try reflexivity.
    apply (adds_only_bind is_goto _ 0 1);
      [apply adds_only_preserves, preserves_emit; reflexivity|intros _ _].
    apply (adds_only_bind is_goto _ 0 1);
      [apply adds_only_preserves, preserves_launch; reflexivity|intros _ _].
    apply (adds_only_bind is_goto _ 0 1);
      [apply adds_only_preserves, preserves_new_context; reflexivity
      |intros _ _].
    apply (adds_only_bind is_goto _ 0 1);
      [apply adds_only_preserves, preserves_new_page; reflexivity|intros _ _].
    apply (adds_only_bind is_goto _ 0 1);
      [apply adds_only_preserves, preserves_emit; reflexivity|intros _ _].
    apply (adds_only_bind is_goto _ 1 0); [apply adds_goto|intros page _].
    apply adds_only_preserves.
    repeat first
      [ simple apply preserves_ret
      | simple apply preserves_lift
      | simple apply preserves_emit; reflexivity
      | simple apply preserves_browser_close; reflexivity
      | simple apply preserves_bind; [|intros ? _]
      | match goal with |- preserves _ (match ?d with _ => _ end) =>
          destruct d end ].
  - intros e. apply adds_only_preserves.
    apply preserves_bind; [apply preserves_emit; reflexivity|].
    intros _ _. apply preserves_ret.
Qed.

Lemma save_preserves kind dir data :
  (forall e, is_local e = true -> kind e = false) ->
  (forall table row, kind (Insert table row) = false) ->
  preserves (calls kind) (save_to_supabase env dir data).
Proof.
  intros Hl Hi. unfold save_to_supabase, log.
  apply preserves_try.
  - apply preserves_bind; [apply preserves_read_clock, Hl; reflexivity|].
    intros now _.
    apply preserves_bind; [apply preserves_insert, Hi|intros _ _].
    apply preserves_bind; [apply preserves_emit, Hl; reflexivity|intros _ _].
    apply preserves_ret.
  - intros e. apply preserves_bind;
      [apply preserves_emit, Hl; reflexivity | intros _ _; apply preserves_ret].
Qed.

(** A save hands at most one row to the store, built from the data. *)
Lemma save_adds_insert dir data :
  adds_only is_insert
            (fun e => exists now,
                 e = Insert "traffic_data" (row_of now dir data))
            1 (save_to_supabase env dir data).
Proof.
  unfold save_to_supabase, log.
  apply (adds_only_try is_insert _ 1 0).
  - apply (adds_only_bind is_insert _ 0 1);
      [apply adds_only_preserves, preserves_read_clock; reflexivity|].
    intros now _.
    apply (adds_only_bind is_insert _ 1 0).
    + apply adds_insert. exists now. reflexivity.
    + intros _ _. apply adds_only_preserves.
      apply preserves_bind; [apply preserves_emit; reflexivity|].
      intros _ _. apply preserves_ret.
  - intros e. apply adds_only_preserves.
    apply preserves_bind; [apply preserves_emit; reflexivity|].
    intros _ _. apply preserves_ret.
Qed.

End OutsideFacts.

Lemma adds_only_mono (A : Type) kind (P Q : event -> Prop) n n' (m : M A) :
  (forall e, P e -> Q e) -> (n <= n')%nat ->
  adds_only kind P n m -> adds_only kind Q n' m.
Proof.
  intros HPQ Hn H w. destruct (H w) as (l & E & L & F).
  exists l. split; [assumption|]. split; [lia|].
  eapply Forall_impl; eassumption.
Qed.

Section RunCountFacts.

Variable env : Env.

Lemma endpoints_preserves kind dir :
  (forall e, is_local e = true -> kind e = false) ->
  preserves (calls kind)
    (if text_eqb dir (str "home_to_office")
     then (log INFO "Direction: Home -> Office" ;;;
           ret (HOME_ADDRESS, OFFICE_ADDRESS))%world
     else (log INFO "Direction: Office -> Home" ;;;
           ret (OFFICE_ADDRESS, HOME_ADDRESS))%world).
Proof.
  intros Hl. unfold log.
  destruct (text_eqb dir (str "home_to_office"));
    (apply preserves_bind;
     [apply preserves_emit, Hl; reflexivity | intros; apply preserves_ret]).
Qed.

Lemma report_preserves kind l m1 m2 :
  (forall e, is_local e = true -> kind e = false) ->
  preserves (calls kind) (log l m1 ;;; print m2)%world.
Proof.
  intros Hl. unfold log, print.
  apply preserves_bind; [apply preserves_emit, Hl; reflexivity|].
  intros _ _. apply preserves_emit, Hl. reflexivity.
Qed.

(** The part of a run after the resolution of the direction loads at most
    one page: the routing URL of the direction's endpoints. *)
Lemma run_with_adds_goto dir :
  adds_only is_goto
            (eq (Goto (maps_url (fst (route_endpoints dir))
                                (snd (route_endpoints dir)))))
            1 (run_with env dir).
Proof.
  unfold run_with. destruct (negb (valid_direction dir)).
  { apply (adds_only_mono _ _ _ _ 0 1 _ (fun e H => H)); [lia|].
    apply adds_only_preserves, preserves_emit. reflexivity. }
  apply (adds_only_bind is_goto _ 0 1);
    [apply adds_only_preserves, preserves_emit; reflexivity|intros _ _].
  apply (adds_only_bind is_goto _ 0 1);
    [apply adds_only_preserves, endpoints_preserves, goto_not_local|].
  intros ep [w0 Hep]. apply endpoints_step in Hep. subst ep.
  apply (adds_only_bind is_goto _ 1 0); [apply scrape_adds_goto|].
  intros [data|] _; apply adds_only_preserves.
  - apply preserves_bind.
    + apply save_preserves; [exact goto_not_local | reflexivity].
    + intros [|] _; apply report_preserves, goto_not_local.
  - apply report_preserves, goto_not_local.
Qed.

(** It hands at most one row to the store, a row of the direction. *)
Lemma run_with_adds_insert dir :
  adds_only is_insert
            (fun e => exists now data,
                 e = Insert "traffic_data" (row_of now dir data))
            1 (run_with env dir).
Proof.
  unfold run_with. destruct (negb (valid_direction dir)).
  { apply (adds_only_mono _ _ _ _ 0 1 _ (fun e H => H)); [lia|].
    apply adds_only_preserves, preserves_emit. reflexivity. }
  apply (adds_only_bind is_insert _ 0 1);
    [apply adds_only_preserves, preserves_emit; reflexivity|intros _ _].
  apply (adds_only_bind is_insert _ 0 1);
    [apply adds_only_preserves, endpoints_preserves, insert_not_local|].
  intros ep _.
  apply (adds_only_bind is_insert _ 0 1).
  { apply adds_only_preserves, scrape_preserves. auto. }
  intros [data|] _.
  - apply (adds_only_bind is_insert _ 1 0).
    + eapply adds_only_mono; [|apply Nat.le_refl|apply save_adds_insert].
      intros e [now ->]. exists now, data. reflexivity.
    + intros [|] _; apply adds_only_preserves, report_preserves,
        insert_not_local.
  - apply (adds_only_mono _ _ _ _ 0 1 _ (fun e H => H)); [lia|].
    apply adds_only_preserves, report_preserves, insert_not_local.
Qed.

End RunCountFacts.

(** X8. A run makes a single attempt: it requests at most one page load,
    the routing URL from the origin to the destination of its direction,
    and hands at most one row to the store, a row of that direction; there
    is no second try after a failure. *)
Theorem run_single_attempt :
  forall (env : Env) (route_direction : option text) (w : World),
    let w' := snd (run env route_direction w) in
    let dir := resolved_direction env route_direction w in
    let origin := fst (route_endpoints dir) in
    let destination := snd (route_endpoints dir) in
    (exists loads,
        network_calls w' = network_calls w ++ loads /\
        (length loads <= 1)%nat /\
        Forall (eq (Goto (maps_url origin destination))) loads)
    /\ (exists rows,
           persistence_calls w' = persistence_calls w ++ rows /\
           (length rows <= 1)%nat /\
           Forall (fun e => exists now data,
                       e = Insert "traffic_data" (row_of now dir data)) rows).
Proof.
  intros env rd w w' dir origin destination.
  subst w' origin destination dir. split.
  - apply (run_frame_gen env is_goto goto_not_local rd w
             (fun l => exists loads,
                  l = network_calls w ++ loads /\
                  (length loads <= 1)%nat /\ Forall _ loads)).
    intros w0 Hw0.
    destruct (run_with_adds_goto env (resolved_direction env rd w) w0)
      as (l & E & L & F).
    exists l. unfold network_calls. rewrite E, Hw0. auto.
  - apply (run_frame_gen env is_insert insert_not_local rd w
             (fun l => exists rows,
                  l = persistence_calls w ++ rows /\
                  (length rows <= 1)%nat /\ Forall _ rows)).
    intros w0 Hw0.
    destruct (run_with_adds_insert env (resolved_direction env rd w) w0)
      as (l & E & L & F).
    exists l. unfold persistence_calls. rewrite E, Hw0. auto.
Qed.

(** ** Persistence, further *)

Lemma save_to_supabase_run env dir data w :
  save_to_supabase env dir data w
  = (Ok match insert_outcome env (row_of (clock env (clock_reads w)) dir data)
        with Ok _ => true | Raise _ => false end,
     MkWorld (driver_running w) (browser_open w) (context_open w)
             (S (clock_reads w))
             (trace w ++
                [Now;
                 Insert "traffic_data"
                        (row_of (clock env (clock_reads w)) dir data);
                 match insert_outcome env
                         (row_of (clock env (clock_reads w)) dir data) with
                 | Ok _ => Log INFO "Successfully saved to Supabase: "
                 | Raise _ => Log ERROR "Error saving to Supabase: "
                 end])).
Proof.
  unfold save_to_supabase, try_exceptM, bind, read_clock, insert, log,
    emit, ret, record_event, row_of.
  cbn. destruct (insert_outcome env _); cbn;
    rewrite <- !app_assoc; reflexivity.
Qed.

(** X9. A save never raises: it reads the clock once, hands the store
    exactly one row for the table [traffic_data] and answers whether the
    store accepted it, logging the success or the error.  The row carries
    the direction it was given and the four fields of the data unchanged,
    and its timestamp and day of week come from the same clock reading. *)
Theorem save_to_supabase_outcome :
  forall (env : Env) (dir : text) (data : travel_data) (w : World),
    let now := clock env (clock_reads w) in
    let row := row_of now dir data in
    let accepted :=
      match insert_outcome env row with Ok _ => true | Raise _ => false end in
    save_to_supabase env dir data w
    = (Ok accepted,
       MkWorld (driver_running w) (browser_open w) (context_open w)
               (S (clock_reads w))
               (trace w ++
                  [Now; Insert "traffic_data" row;
                   if accepted
                   then Log INFO "Successfully saved to Supabase: "
                   else Log ERROR "Error saving to Supabase: "]))
    /\ row = Observation (isoformat now) dir (duration_minutes data)
                         (duration_text data) (distance data)
                         (traffic_status data) (day_name now).
Proof.
  intros env dir data w now row accepted. split; [|reflexivity].
  subst accepted row now. rewrite save_to_supabase_run.
  destruct (insert_outcome env _); reflexivity.
Qed.

(** ** Scrape orchestrator, further *)

(** X10. When every browser call succeeds, a scrape returns what the
    extractor returns for the loaded page, and its browser calls are, in
    this order: start of the driver, launch, new context, new page, the
    load of the routing URL, close of the browser, stop of the driver. *)
Theorem scrape_composition :
  forall (env : Env) (origin destination : text) (w : World) (page : Page),
    start_outcome env = Ok tt -> launch_outcome env = Ok tt ->
    new_context_outcome env = Ok tt -> new_page_outcome env = Ok tt ->
    goto_outcome env (maps_url origin destination) = Ok page ->
    close_outcome env = Ok tt ->
    fst (scrape_google_maps env origin destination w)
    = _extract_travel_data page
    /\ browser_calls (snd (scrape_google_maps env origin destination w))
       = browser_calls w ++
         [PlaywrightStart; Launch; NewContext; NewPage;
          Goto (maps_url origin destination); BrowserClose; PlaywrightStop].
Proof.
  intros env origin destination w page Hs Hl Hc Hp Hg Hx.
  destruct (_extract_travel_data_total page) as [r Hr].
  unfold scrape_google_maps, try_exceptM, with_playwright, playwright_enter,
    scrape_session, bind, launch, new_context, new_page, goto, browser_close,
    sleep, lift, log, emit, ret, browser_calls, calls.
  rewrite Hs. cbn -[maps_url _extract_travel_data].
  rewrite Hl. cbn -[maps_url _extract_travel_data].
  rewrite Hc. cbn -[maps_url _extract_travel_data].
  rewrite Hp. cbn -[maps_url _extract_travel_data].
  rewrite Hg. cbn -[maps_url _extract_travel_data].
  rewrite Hr. cbn -[maps_url _extract_travel_data].
  rewrite Hx. cbn -[maps_url _extract_travel_data].
  destruct r as [d|]; cbn -[maps_url];
    (split; [reflexivity|]);
    rewrite !filter_app; cbn -[maps_url];
    rewrite <- !app_assoc; reflexivity.
Qed.

Lemma scrape_composition_witness :
  fst (scrape_google_maps
         (calm_env (plain_page [] (str "25 min")))
         HOME_ADDRESS OFFICE_ADDRESS initial_world)
  = _extract_travel_data (plain_page [] (str "25 min")).
Proof.
  apply (scrape_composition
           (calm_env (plain_page [] (str "25 min")))
           HOME_ADDRESS OFFICE_ADDRESS initial_world
           (plain_page [] (str "25 min"))); reflexivity.
Defined.

(** X11. A failure of [browser.close()] costs the result: when the browser
    calls up to the page load succeed and the close raises, the scrape
    returns no result and logs the error, also when the extractor had
    produced a record. *)
Theorem close_failure_discards_record :
  forall (env : Env) (origin destination : text) (w : World) (page : Page)
         (x : exn),
    start_outcome env = Ok tt -> launch_outcome env = Ok tt ->
    new_context_outcome env = Ok tt -> new_page_outcome env = Ok tt ->
    goto_outcome env (maps_url origin destination) = Ok page ->
    close_outcome env = Raise x ->
    fst (scrape_google_maps env origin destination w) = Ok None
    /\ hd_error (rev (trace (snd (scrape_google_maps env origin
                                                     destination w))))
       = Some (Log ERROR "Error scraping Google Maps: ").
Proof.
  intros env origin destination w page x Hs Hl Hc Hp Hg Hx.
  destruct (_extract_travel_data_total page) as [r Hr].
  unfold scrape_google_maps, try_exceptM, with_playwright, playwright_enter,
    scrape_session, bind, launch, new_context, new_page, goto, browser_close,
    sleep, lift, log, emit, ret.
  rewrite Hs. cbn -[maps_url _extract_travel_data].
  rewrite Hl. cbn -[maps_url _extract_travel_data].
  rewrite Hc. cbn -[maps_url _extract_travel_data].
  rewrite Hp. cbn -[maps_url _extract_travel_data].
  rewrite Hg. cbn -[maps_url _extract_travel_data].
  rewrite Hr. cbn -[maps_url _extract_travel_data].
  rewrite Hx. cbn -[maps_url _extract_travel_data rev].
  split; [reflexivity|].
  rewrite rev_app_distr. reflexivity.
Qed.

Lemma close_failure_discards_record_witness :
  _extract_travel_data (plain_page [] (str "25 min"))
  = Ok (Some (TravelData (str "25 min") 25 (str "N/A") (str "Unknown")))
  /\ fst (scrape_google_maps
            (close_fails_env (plain_page [] (str "25 min")))
            HOME_ADDRESS OFFICE_ADDRESS initial_world) = Ok None.
Proof.
  split; [vm_compute; reflexivity|].
  apply (proj1 (close_failure_discards_record
                  (close_fails_env (plain_page [] (str "25 min")))
                  HOME_ADDRESS OFFICE_ADDRESS initial_world
                  (plain_page [] (str "25 min")) PlaywrightError
                  eq_refl eq_refl eq_refl eq_refl eq_refl eq_refl)).
Defined.

(** X12. A scrape stops the driver whenever it started it: when the start
    succeeds, the last browser call of the scrape is the stop of the
    driver, whatever failed in between; when the start raises, the start
    is the only browser call. *)
Theorem driver_bracket :
  forall (env : Env) (origin destination : text) (w : World),
    let w' := snd (scrape_google_maps env origin destination w) in
    (start_outcome env = Ok tt ->
     last_call is_browser_call w' = Some PlaywrightStop)
    /\ (forall x, start_outcome env = Raise x ->
                  browser_calls w' = browser_calls w ++ [PlaywrightStart]).
Proof.
  intros env origin destination w w'. subst w'.
  unfold scrape_google_maps, try_exceptM, with_playwright, playwright_enter.
  split.
  - intros ->.
    match goal with |- context [scrape_session ?e ?o ?d ?w1] =>
      destruct (scrape_session e o d w1) as [[data|x] w2] end;
      unfold last_call, calls; cbn; rewrite ?filter_app; cbn;
      rewrite ?app_nil_r, rev_app_distr; reflexivity.
  - intros x ->. unfold browser_calls, calls. cbn.
    rewrite !filter_app. cbn. rewrite app_nil_r. reflexivity.
Qed.

Lemma driver_bracket_witness :
  last_call is_browser_call
            (snd (scrape_google_maps timeout_env HOME_ADDRESS OFFICE_ADDRESS
                                     initial_world))
  = Some PlaywrightStop.
Proof.
  apply (proj1 (driver_bracket timeout_env HOME_ADDRESS OFFICE_ADDRESS
                               initial_world)).
  reflexivity.
Defined.

(** ** Run coordinator, further *)

Lemma determine_valid now :
  valid_direction (determine_direction_from_time now) = true.
Proof.
  unfold determine_direction_from_time.
  destruct (_ && _); [reflexivity|].
  destruct (_ && _); reflexivity.
Qed.

Section ReportFacts.

Variable env : Env.

Lemma adds_any_emit kind e : adds_only kind (fun _ => True) 1 (emit e).
Proof.
  intros w. unfold emit. simpl. rewrite calls_record.
  eexists. split; [reflexivity|].
  destruct (kind e); simpl; split; auto.
Qed.

Lemma adds_any_launch kind : adds_only kind (fun _ => True) 1 (launch env).
Proof.
  intros w. unfold launch.
  destruct (launch_outcome env); simpl;
    change (exists l, calls kind (record_event Launch w) = calls kind w ++ l
                      /\ (length l <= 1)%nat /\ Forall (fun _ => True) l);
    rewrite calls_record; eexists; (split; [reflexivity|]);
    destruct (kind Launch); simpl; split; auto.
Qed.

Lemma adds_any_new_context kind :
  adds_only kind (fun _ => True) 1 (new_context env).
Proof.
  intros w. unfold new_context.
  destruct (new_context_outcome env); simpl;
    change (exists l, calls kind (record_event NewContext w)
                      = calls kind w ++ l
                      /\ (length l <= 1)%nat /\ Forall (fun _ => True) l);
    rewrite calls_record; eexists; (split; [reflexivity|]);
    destruct (kind NewContext); simpl; split; auto.
Qed.

Lemma adds_any_new_page kind :
  adds_only kind (fun _ => True) 1 (new_page env).
Proof.
  intros w. unfold new_page. simpl. rewrite calls_record.
  eexists. split; [reflexivity|].
  destruct (kind NewPage); simpl; split; auto.
Qed.

Lemma adds_any_goto kind url :
  adds_only kind (fun _ => True) 1 (goto env url).
Proof.
  intros w. unfold goto. simpl. rewrite calls_record.
  eexists. split; [reflexivity|].
  destruct (kind (Goto url)); simpl; split; auto.
Qed.

Lemma adds_any_browser_close kind :
  adds_only kind (fun _ => True) 1 (browser_close env).
Proof.
  intros w. unfold browser_close.
  destruct (close_outcome env); simpl;
    change (exists l, calls kind (record_event BrowserClose w)
                      = calls kind w ++ l
                      /\ (length l <= 1)%nat /\ Forall (fun _ => True) l);
    rewrite calls_record; eexists; (split; [reflexivity|]);
    destruct (kind BrowserClose); simpl; split; auto.
Qed.

(** The calls of a kind a browsing session makes are added after those
    made before. *)
Lemma session_grows kind origin destination :
  adds_only kind (fun _ => True) 11 (scrape_session env origin destination).
Proof.
  unfold scrape_session, log, sleep.
  apply (adds_only_bind kind _ 1 10); [apply adds_any_emit|intros _ _].
  apply (adds_only_bind kind _ 1 9); [apply adds_any_launch|intros _ _].
  apply (adds_only_bind kind _ 1 8); [apply adds_any_new_context|intros _ _].
  apply (adds_only_bind kind _ 1 7); [apply adds_any_new_page|intros _ _].
  apply (adds_only_bind kind _ 1 6); [apply adds_any_emit|intros _ _].
  apply (adds_only_bind kind _ 1 5); [apply adds_any_goto|intros page _].
  apply (adds_only_bind kind _ 1 4); [apply adds_any_emit|intros _ _].
  apply (adds_only_bind kind _ 0 4);
    [apply adds_only_preserves, preserves_lift|intros data _].
  apply (adds_only_bind kind _ 1 3);
    [apply adds_any_browser_close|intros _ _].
  destruct data;
    (apply (adds_only_bind kind _ 1 2); [apply adds_any_emit|intros _ _];
     apply (adds_only_mono _ _ _ _ 0 2 _ (fun e H => H)); [lia|];
     apply adds_only_preserves, preserves_ret).
Qed.

(** The first browser call of a scrape is the start of the driver. *)
Lemma scrape_starts origin destination w :
  exists l,
    browser_calls (snd (scrape_google_maps env origin destination w))
    = browser_calls w ++ PlaywrightStart :: l.
Proof.
  unfold scrape_google_maps, try_exceptM, with_playwright, playwright_enter.
  assert (Hlog : forall w0 msg,
             browser_calls (record_event (Log ERROR msg) w0)
             = browser_calls w0).
  { intros. unfold browser_calls. rewrite calls_record. apply app_nil_r. }
  assert (Hstart : forall w0 a b c,
             browser_calls
               (MkWorld a b c (clock_reads (record_event PlaywrightStart w0))
                        (trace (record_event PlaywrightStart w0)))
             = browser_calls w0 ++ [PlaywrightStart]).
  { intros. unfold browser_calls, calls. cbn. rewrite filter_app.
    reflexivity. }
  destruct (start_outcome env) as [[]|x].
  - match goal with |- context [scrape_session ?e ?o ?d ?w1] =>
      destruct (session_grows is_browser_call o d w1) as (l & E & _);
      destruct (scrape_session e o d w1) as [[data|y] w2] end;
      cbn [fst snd] in *; fold browser_calls in E;
      rewrite Hstart in E.
    + exists (l ++ [PlaywrightStop]). unfold playwright_exit.
      change (browser_calls (record_event PlaywrightStop w2)
              = browser_calls w ++ PlaywrightStart :: l ++ [PlaywrightStop]).
      unfold browser_calls in *. rewrite calls_record, E.
      cbn. rewrite <- !app_assoc. reflexivity.
    + exists (l ++ [PlaywrightStop]).
      change (browser_calls
                (record_event (Log ERROR "Error scraping Google Maps: ")
                   (record_event PlaywrightStop w2))
              = browser_calls w ++ PlaywrightStart :: l ++ [PlaywrightStop]).
      rewrite Hlog. unfold browser_calls in *. rewrite calls_record, E.
      cbn. rewrite <- !app_assoc. reflexivity.
  - exists [].
    change (browser_calls
              (record_event (Log ERROR "Error scraping Google Maps: ")
                 (record_event PlaywrightStart w))
            = browser_calls w ++ [PlaywrightStart]).
    rewrite Hlog. unfold browser_calls. rewrite calls_record. reflexivity.
Qed.

(** With a valid direction the part of a run after the resolution starts
    a scrape. *)
Lemma run_with_starts dir w :
  valid_direction dir = true ->
  exists l,
    browser_calls (snd (run_with env dir w))
    = browser_calls w ++ PlaywrightStart :: l.
Proof.
  intros Hv. unfold run_with. rewrite Hv. cbn [negb].
  rewrite (bind_run _ _ _ _ w tt
             (record_event (Log INFO "Starting traffic monitoring for route: ") w))
    by reflexivity.
  set (w1 := record_event _ w).
  assert (Hep : exists w2,
             (if text_eqb dir (str "home_to_office")
              then (log INFO "Direction: Home -> Office" ;;;
                    ret (HOME_ADDRESS, OFFICE_ADDRESS))%world
              else (log INFO "Direction: Office -> Home" ;;;
                    ret (OFFICE_ADDRESS, HOME_ADDRESS))%world) w1
             = (Ok (route_endpoints dir), w2)
             /\ browser_calls w2 = browser_calls w).
  { unfold route_endpoints.
    destruct (text_eqb dir (str "home_to_office")); eexists;
      (split; [reflexivity|]);
      unfold browser_calls; subst w1;
      rewrite !calls_record; cbn; rewrite !app_nil_r; reflexivity. }
  destruct Hep as (w2 & Hep & Hw2).
  rewrite (bind_run _ _ _ _ w1 _ w2 Hep).
  destruct (scrape_starts (fst (route_endpoints dir))
                          (snd (route_endpoints dir)) w2) as [l Hl].
  set (k := fun data : option travel_data => _).
  assert (Hk : forall data, preserves browser_calls (k data)).
  { intros [data|]; subst k; cbv beta.
    - apply preserves_bind.
      + apply save_preserves; [exact browser_call_not_local | reflexivity].
      + intros [|] _; apply report_preserves, browser_call_not_local.
    - apply report_preserves, browser_call_not_local. }
  unfold bind.
  destruct (scrape_google_maps env _ _ w2) as [[data|x] w3];
    cbn [fst snd] in *.
  - exists l. rewrite Hk, Hl, Hw2. reflexivity.
  - exists l. rewrite Hl, Hw2. reflexivity.
Qed.

Lemma run_with_never_raises dir : never_raises (run_with env dir).
Proof.
  assert (He : forall e, never_raises (emit e))
    by (intros e w; exists tt; reflexivity).
  assert (Hr : forall (A : Type) (a : A), never_raises (ret a))
    by (intros A a w; exists a; reflexivity).
  unfold run_with, log, print. destruct (negb (valid_direction dir)).
  - apply He.
  - apply never_raises_bind; [apply He|intros _].
    apply never_raises_bind.
    { destruct (text_eqb dir (str "home_to_office"));
        (apply never_raises_bind; [apply He | intros _; apply Hr]). }
    intros ep. apply never_raises_bind.
    { unfold scrape_google_maps. apply never_raises_try. intros e.
      apply never_raises_bind; [apply He | intros _; apply Hr]. }
    intros [data|].
    + apply never_raises_bind.
      { unfold save_to_supabase. apply never_raises_try. intros e.
        apply never_raises_bind; [apply He | intros _; apply Hr]. }
      intros [|]; (apply never_raises_bind; [apply He | intros _; apply He]).
    + apply never_raises_bind; [apply He | intros _; apply He].
Qed.

(** The [try] body of a run returns normally, so that the handler of the
    run is not entered. *)
Lemma run_unfold rd w :
  run env rd w
  = run_with env (resolved_direction env rd w)
             (match rd with
              | Some _ => w
              | None => snd (read_clock env w)
              end).
Proof.
  unfold run, try_exceptM, bind.
  destruct rd as [d|]; cbn -[run_with].
  - destruct (run_with_never_raises d w) as [[] H].
    destruct (run_with env d w) as [r w1]. simpl in H. subst r. reflexivity.
  - match goal with |- context [run_with env ?d ?w1] =>
      destruct (run_with_never_raises d w1) as [[] H];
      destruct (run_with env d w1) as [r w2] end.
    simpl in H. subst r. reflexivity.
Qed.

Lemma run_with_report dir data w :
  valid_direction dir = true ->
  scrape_result env (fst (route_endpoints dir)) (snd (route_endpoints dir))
  = Ok (Some data) ->
  exists w3 w4,
    persistence_calls w3 = persistence_calls w /\
    save_to_supabase env dir data w3
    = (Ok match insert_outcome env
                  (row_of (clock env (clock_reads w3)) dir data) with
          | Ok _ => true | Raise _ => false end, w4) /\
    run_with env dir w
    = (Ok tt,
       match insert_outcome env
               (row_of (clock env (clock_reads w3)) dir data) with
       | Ok _ =>
           record_event (Print "Success! Duration: ")
             (record_event
                (Log INFO "Traffic data collected and saved successfully") w4)
       | Raise _ =>
           record_event (Print "Failed to save data to database")
             (record_event (Log ERROR "Failed to save data to database") w4)
       end).
Proof.
  intros Hv Hs. unfold run_with. rewrite Hv. cbn [negb].
  rewrite (bind_run _ _ _ _ w tt
             (record_event (Log INFO "Starting traffic monitoring for route: ") w))
    by reflexivity.
  set (w1 := record_event _ w).
  assert (Hep : exists w2,
             (if text_eqb dir (str "home_to_office")
              then (log INFO "Direction: Home -> Office" ;;;
                    ret (HOME_ADDRESS, OFFICE_ADDRESS))%world
              else (log INFO "Direction: Office -> Home" ;;;
                    ret (OFFICE_ADDRESS, HOME_ADDRESS))%world) w1
             = (Ok (route_endpoints dir), w2)
             /\ persistence_calls w2 = persistence_calls w).
  { unfold route_endpoints.
    destruct (text_eqb dir (str "home_to_office")); eexists;
      (split; [reflexivity|]);
      unfold persistence_calls; subst w1;
      rewrite !calls_record; cbn; rewrite !app_nil_r; reflexivity. }
  destruct Hep as (w2 & Hep & Hw2).
  rewrite (bind_run _ _ _ _ w1 _ w2 Hep).
  pose proof (scrape_result_any_world env (fst (route_endpoints dir))
                (snd (route_endpoints dir)) w2) as Hr.
  pose proof (scrape_preserves env is_insert (fst (route_endpoints dir))
                (snd (route_endpoints dir)) (fun e H => H) w2) as Hp.
  destruct (scrape_google_maps env _ _ w2) as [r w3] eqn:Es.
  cbn [fst snd] in Hr, Hp. rewrite Hs in Hr. subst r.
  rewrite (bind_run _ _ _ _ w2 _ w3 Es).
  eexists w3, _. split; [|split].
  - unfold persistence_calls in *. rewrite Hp. exact Hw2.
  - apply save_to_supabase_run.
  - rewrite (bind_run _ _ _ _ w3 _ _ (save_to_supabase_run env dir data w3)).
    destruct (insert_outcome env _); reflexivity.
Qed.

End ReportFacts.

Lemma resolution_world_calls env kind (rd : option text) w :
  (forall e, is_local e = true -> kind e = false) ->
  calls kind (match rd with
              | Some _ => w
              | None => snd (read_clock env w)
              end) = calls kind w.
Proof.
  intros Hl. destruct rd; [reflexivity|].
  apply preserves_read_clock, Hl. reflexivity.
Qed.

(** X13. A run never raises and tells the operator how it ended: with a
    valid direction and a record from the scrape, it hands one row with
    that record to the store and ends by logging and printing the success
    when the store accepted the row, and the failure to save when the
    store refused it. *)
Theorem run_report :
  forall (env : Env) (route_direction : option text) (w : World),
    let w' := snd (run env route_direction w) in
    let dir := resolved_direction env route_direction w in
    fst (run env route_direction w) = Ok tt
    /\ (forall data,
           valid_direction dir = true ->
           scrape_result env (fst (route_endpoints dir))
                         (snd (route_endpoints dir)) = Ok (Some data) ->
           exists now w4,
             persistence_calls w4
             = persistence_calls w
                 ++ [Insert "traffic_data" (row_of now dir data)] /\
             w' = match insert_outcome env (row_of now dir data) with
                  | Ok _ =>
                      record_event (Print "Success! Duration: ")
                        (record_event
                           (Log INFO
                              "Traffic data collected and saved successfully")
                           w4)
                  | Raise _ =>
                      record_event (Print "Failed to save data to database")
                        (record_event
                           (Log ERROR "Failed to save data to database") w4)
                  end).
Proof.
  intros env rd w w' dir. subst w' dir. rewrite run_unfold. split.
  - destruct (run_with_never_raises env (resolved_direction env rd w)
                (match rd with
                 | Some _ => w
                 | None => snd (read_clock env w)
                 end)) as [[] H].
    exact H.
  - intros data Hv Hs.
    destruct (run_with_report env _ data
                (match rd with
                 | Some _ => w
                 | None => snd (read_clock env w)
                 end) Hv Hs) as (w3 & w4 & Hw3 & Hsave & Hrun).
    exists (clock env (clock_reads w3)), w4. split.
    + rewrite save_to_supabase_run in Hsave. injection Hsave as <-.
      unfold persistence_calls in *. unfold calls at 1. cbn [trace].
      rewrite filter_app. fold (calls is_insert w3). rewrite Hw3.
      rewrite (resolution_world_calls env is_insert rd w insert_not_local).
      f_equal. cbn. destruct (insert_outcome env _); reflexivity.
    + rewrite Hrun. reflexivity.
Qed.

Lemma run_report_witness :
  exists now w4,
    persistence_calls w4
    = persistence_calls initial_world
        ++ [Insert "traffic_data"
                   (row_of now (str "office_to_home")
                      (TravelData (str "25 min") 25 (str "N/A")
                                  (str "Unknown")))]
    /\ snd (run (store_fails_env (plain_page [] (str "25 min")))
                (Some (str "office_to_home")) initial_world)
       = match insert_outcome (store_fails_env (plain_page [] (str "25 min")))
                 (row_of now (str "office_to_home")
                    (TravelData (str "25 min") 25 (str "N/A")
                                (str "Unknown"))) with
         | Ok _ =>
             record_event (Print "Success! Duration: ")
               (record_event
                  (Log INFO "Traffic data collected and saved successfully")
                  w4)
         | Raise _ =>
             record_event (Print "Failed to save data to database")
               (record_event
                  (Log ERROR "Failed to save data to database") w4)
         end.
Proof.
  apply (proj2 (run_report (store_fails_env (plain_page [] (str "25 min")))
                           (Some (str "office_to_home")) initial_world));
    vm_compute; reflexivity.
Defined.

(** X14. Run without a direction, the coordinator is never turned away by
    its own validation: the direction read off the clock is a valid one at
    every hour, and the run goes on to start a scrape. *)
Theorem auto_direction_accepted :
  forall (env : Env) (w : World),
    valid_direction (resolved_direction env None w) = true
    /\ exists l,
        browser_calls (snd (run env None w))
        = browser_calls w ++ PlaywrightStart :: l.
Proof.
  intros env w. split; [apply determine_valid|].
  rewrite run_unfold.
  destruct (run_with_starts env (resolved_direction env None w)
              (snd (read_clock env w)) (determine_valid _)) as [l Hl].
  exists l. rewrite Hl. unfold browser_calls.
  rewrite (resolution_world_calls env is_browser_call None w
             browser_call_not_local).
  reflexivity.
Qed.

(** ** Entry point *)

Lemma choice_direction arg :
  existsb (text_eqb arg) direction_choices = true ->
  text_eqb arg (str "auto") = false ->
  valid_direction arg = true.
Proof.
  unfold direction_choices, valid_direction. cbn [existsb].
  intros H Ha. rewrite Ha in H. rewrite !orb_false_r in *. exact H.
Qed.

(** X15. Without credentials nothing is attempted: when the store's URL or
    key is missing or empty, or when the client cannot be created, the
    process logs and prints a fatal error and exits with status 1, having
    made no browser call, read no clock and written nothing. *)
Theorem main_requires_credentials :
  forall (cfg : Config) (env : Env) (given : option text) (w : World) x,
    parse_args given <> None ->
    __init__ cfg = Raise x ->
    main cfg env given w
    = (1, record_event (Print "Fatal error: ")
            (record_event (Log ERROR "Fatal error: ") w))
    /\ (truthy_text (SUPABASE_URL cfg) = false
        \/ truthy_text (SUPABASE_KEY cfg) = false
        \/ create_client_outcome cfg = Raise x).
Proof.
  intros cfg env given w x Hp Hi. split.
  - unfold main. destruct (parse_args given) as [arg|]; [|congruence].
    unfold bind, lift. rewrite Hi. reflexivity.
  - unfold __init__ in Hi.
    destruct (truthy_text (SUPABASE_URL cfg)); [|auto].
    destruct (truthy_text (SUPABASE_KEY cfg)); [|auto].
    simpl in Hi. auto.
Qed.

Lemma main_requires_credentials_witness :
  main no_key_config timeout_env None initial_world
  = (1, record_event (Print "Fatal error: ")
          (record_event (Log ERROR "Fatal error: ") initial_world)).
Proof.
  apply (proj1 (main_requires_credentials no_key_config timeout_env None
                  initial_world ValueError
                  ltac:(discriminate) eq_refl)).
Defined.

(** X16. The exit status tells little: a value of the direction option
    outside the three choices ends the process with status 2 before
    anything is done; with credentials and a client, the process always
    starts a scrape and exits with status 0, whatever the browser and the
    store answer. *)
Theorem main_exit_status :
  forall (cfg : Config) (env : Env) (given : option text) (w : World),
    (forall v, given = Some v ->
               existsb (text_eqb v) direction_choices = false ->
               main cfg env given w = (2, w))
    /\ (parse_args given <> None ->
        __init__ cfg = Ok tt ->
        fst (main cfg env given w) = 0
        /\ exists l,
            browser_calls (snd (main cfg env given w))
            = browser_calls w ++ PlaywrightStart :: l).
Proof.
  intros cfg env given w. split.
  - intros v -> Hv. unfold main, parse_args. rewrite Hv. reflexivity.
  - intros Hp Hi. unfold main.
    destruct (parse_args given) as [arg|] eqn:Ea; [|congruence].
    unfold bind, lift. rewrite Hi.
    set (direction := if text_eqb arg (str "auto") then None else Some arg).
    assert (Hv : valid_direction (resolved_direction env direction w) = true).
    { subst direction. destruct (text_eqb arg (str "auto")) eqn:Eauto.
      - apply determine_valid.
      - apply choice_direction; [|exact Eauto].
        unfold parse_args in Ea. destruct given as [v|].
        + destruct (existsb (text_eqb v) direction_choices) eqn:Ev;
            [|discriminate].
          injection Ea as <-. exact Ev.
        + injection Ea as <-. reflexivity. }
    cbv zeta. rewrite run_unfold.
    match goal with |- context [run_with env ?d ?w0] =>
      destruct (run_with_never_raises env d w0) as [[] H];
      destruct (run_with_starts env d w0 Hv) as [l Hl];
      destruct (run_with env d w0) as [r w1] end.
    cbn [fst snd] in H, Hl. subst r. cbn [fst snd].
    split; [reflexivity|].
    exists l. rewrite Hl. unfold browser_calls.
    rewrite (resolution_world_calls env is_browser_call direction w
               browser_call_not_local).
    reflexivity.
Qed.

Lemma main_exit_status_witness :
  fst (main good_config timeout_env (Some (str "auto")) initial_world) = 0.
Proof.
  apply (proj2 (main_exit_status good_config timeout_env (Some (str "auto"))
                                 initial_world));
    [discriminate | reflexivity].
Defined.

(** ** Duration parser, further *)








Section OtherUnit.

Variable unit : text.
Variable u0 : ascii.
Variable unit_tl : text.
Hypothesis unit_head : unit = u0 :: unit_tl.
Hypothesis unit_head_no_digit : is_digit (lower_char u0) = false.
Hypothesis unit_head_no_space : is_space (lower_char u0) = false.



End OtherUnit.















(** *** Letter case *)













